(** * PyResistESDevice: the binary frame protocol of [pyresistesdevice/device.py]

    A shallow embedding of the class [ResistESDevice]: the measurement-frame
    validator and decoder, the configuration-frame encoder, the
    acknowledgement verifier, the resistivity conversion, the reception
    buffer of a session and the class-level list of field names.

    Conventions of the embedding:
    - a byte, and every Python [int], is a [Z]; [&], [<<], [>>] are
      [Z.land], [Z.shiftl], [Z.shiftr];
    - a Python [float] is an exact rational [Q], and the arithmetic on
      floats is exact: the rounding, overflow and underflow of each float
      operation are not modelled;
    - a raised exception is the [Raise] alternative of [outcome];
    - [self.x] read by a method is an explicit argument, or a field of the
      record [device] when the method also writes the session;
    - calls of [LOGGER] are left out, except where formatting their
      message can raise. *)

From stdpp Require Import base option list strings gmap pretty.
From Stdlib Require Import ZArith QArith Qround Qabs Lia Lqa.

Local Open Scope Z_scope.

(** ** Exceptions *)

Inductive exn : Set :=
| IndexError
| TypeError
| ZeroDivisionError
| BadConfigParamException
| BadAckException
| BadFlushException.

Inductive outcome (A : Type) : Type :=
| Ok (a : A)
| Raise (e : exn).

Arguments Ok {A} a.
Arguments Raise {A} e.

#[global] Instance outcome_ret : MRet outcome := @Ok.
#[global] Instance outcome_bind : MBind outcome :=
  λ A B f m, match m with Ok a => f a | Raise e => Raise e end.

(** [l[i]] for a non-negative index [i]: Python raises [IndexError] when
    [i] is not below [len(l)]. *)
Definition getitem {A} (l : list A) (i : nat) : outcome A :=
  match l !! i with
  | Some x => Ok x
  | None => Raise IndexError
  end.

(** [l[-1]]. *)
Definition getlast {A} (l : list A) : outcome A :=
  match last l with
  | Some x => Ok x
  | None => Raise IndexError
  end.

(** ** Class constants of [ResistESDevice] *)

Definition INJVOLT_MIN : Q := 16.55.
Definition INJVOLT_MAX : Q := 196.51.
Definition INJFREQ_MIN : Q := 0.
Definition INJFREQ_MAX : Q := 62499.
Definition CONFIGFRAME_LENGTH : nat := 10.
Definition CONFIGRESPFRAME_LENGTH : nat := CONFIGFRAME_LENGTH + 1.
Definition UX_MAX : Z := 255.
Definition FX_MAX : Z := 33554431.
Definition IX_MAX : Z := 127.
Definition TX_MAX : Z := 16383.
Definition MEASUREFRAME_MINLENGTH : nat := 14.
Definition POTENTIALVALUE_LENGTH : Z := 4.
Definition RI : Q := 110.

(** ** Measurement frame validator *)

Definition _isbit7valueat1 (byte : Z) : bool := Z.land byte 0x80 =? 0x80.
Definition _isbit7valueat0 (byte : Z) : bool := Z.land byte 0x80 =? 0x00.

(** One guard of the validator,
    [if not self._isbit7valueatX(measureframe[i]): return False],
    followed by the rest of the function. *)
Definition guard (test : Z → bool) (measureframe : list Z) (i : nat)
    (rest : outcome bool) : outcome bool :=
  byte ← getitem measureframe i;
  if negb (test byte) then Ok false else rest.

(** The body of [for i in range(self.channels_nb)] of
    [_ismeasureframevalid], over the remaining values of [i]. The offsets
    are the source's: [MEASUREFRAME_MINLENGTH + i*4 + k]. *)
Fixpoint channel_guards (measureframe : list Z) (range : list nat)
    : outcome bool :=
  match range with
  | [] => Ok true
  | i :: range =>
      guard _isbit7valueat1 measureframe (MEASUREFRAME_MINLENGTH + i * 4) $
      guard _isbit7valueat0 measureframe (MEASUREFRAME_MINLENGTH + i * 4 + 1) $
      guard _isbit7valueat0 measureframe (MEASUREFRAME_MINLENGTH + i * 4 + 2) $
      guard _isbit7valueat0 measureframe (MEASUREFRAME_MINLENGTH + i * 4 + 3) $
      guard _isbit7valueat1 measureframe (MEASUREFRAME_MINLENGTH + i * 4 + 4) $
      guard _isbit7valueat0 measureframe (MEASUREFRAME_MINLENGTH + i * 4 + 5) $
      guard _isbit7valueat0 measureframe (MEASUREFRAME_MINLENGTH + i * 4 + 6) $
      guard _isbit7valueat0 measureframe (MEASUREFRAME_MINLENGTH + i * 4 + 7) $
      channel_guards measureframe range
  end.

(** [range(n)] for a Python integer [n]: empty when [n] is negative. *)
Definition py_range (n : Z) : list nat := seq 0 (Z.to_nat n).

Definition _ismeasureframevalid (channels_nb : Z) (measureframe : list Z)
    : outcome bool :=
  if (length measureframe =? 0)%nat then Ok false
  else if negb (Z.of_nat (length measureframe) =?
                Z.of_nat MEASUREFRAME_MINLENGTH
                + channels_nb * 2 * POTENTIALVALUE_LENGTH)
  then Ok false
  else
    (* measure counter value *)
    guard _isbit7valueat1 measureframe 0 $
    guard _isbit7valueat1 measureframe 1 $
    (* reception battery voltage *)
    guard _isbit7valueat1 measureframe 2 $
    guard _isbit7valueat0 measureframe 3 $
    (* emission battery voltage *)
    guard _isbit7valueat1 measureframe 4 $
    guard _isbit7valueat0 measureframe 5 $
    (* phase current value *)
    guard _isbit7valueat1 measureframe 6 $
    guard _isbit7valueat0 measureframe 7 $
    guard _isbit7valueat0 measureframe 8 $
    guard _isbit7valueat0 measureframe 9 $
    (* quadrature current value *)
    guard _isbit7valueat1 measureframe 10 $
    guard _isbit7valueat0 measureframe 11 $
    guard _isbit7valueat0 measureframe 12 $
    guard _isbit7valueat0 measureframe 13 $
    channel_guards measureframe (py_range channels_nb).

(** ** Measurement frame decoder *)

(** The tuple returned by [_from_measureframe], under the names of its
    [return] statement. *)
Record measures : Type := Measures {
  result : bool;
  count : Z;
  recbatvoltage : Z;
  embatvoltage : Z;
  phasecurrent : Z;
  quadcurrent : Z;
  phasevoltagearray : list Z;
  quadvoltagearray : list Z
}.

(** [(f[o] & 0x7F) + ((f[o+1] & 0x7F) << 7)] *)
Definition word14 (measureframe : list Z) (o : nat) : outcome Z :=
  b0 ← getitem measureframe o;
  b1 ← getitem measureframe (o + 1);
  Ok (Z.land b0 0x7F + Z.shiftl (Z.land b1 0x7F) 7).

(** [(f[o] & 0x7F) + ((f[o+1] & 0x7F) << 7) + ((f[o+2] & 0x7F) << 14)
     + ((f[o+3] & 0x7F) << 21)] *)
Definition word28 (measureframe : list Z) (o : nat) : outcome Z :=
  b0 ← getitem measureframe o;
  b1 ← getitem measureframe (o + 1);
  b2 ← getitem measureframe (o + 2);
  b3 ← getitem measureframe (o + 3);
  Ok (Z.land b0 0x7F + Z.shiftl (Z.land b1 0x7F) 7
      + Z.shiftl (Z.land b2 0x7F) 14 + Z.shiftl (Z.land b3 0x7F) 21).

(** [if (v > pow(2,27)): v -= pow(2,28)] *)
Definition signed28 (v : Z) : Z :=
  if v >? 2 ^ 27 then v - 2 ^ 28 else v.

(** The body of [for i in range(self.channels_nb)] of
    [_from_measureframe], threading the two arrays it appends to. The
    offsets are the source's: [MEASUREFRAME_MINLENGTH + i*2 + k]. *)
Fixpoint channel_values (measureframe : list Z) (range : list nat)
    (phasevoltagearray quadvoltagearray : list Z)
    : outcome (list Z * list Z) :=
  match range with
  | [] => Ok (phasevoltagearray, quadvoltagearray)
  | i :: range =>
      phasevoltage ← word28 measureframe (MEASUREFRAME_MINLENGTH + i * 2);
      let phasevoltagearray := phasevoltagearray ++ [signed28 phasevoltage] in
      quadvoltage ← word28 measureframe (MEASUREFRAME_MINLENGTH + i * 2 + 4);
      let quadvoltagearray := quadvoltagearray ++ [signed28 quadvoltage] in
      channel_values measureframe range phasevoltagearray quadvoltagearray
  end.

Definition no_measures : measures := Measures false 0 0 0 0 0 [] [].

Definition _from_measureframe (channels_nb : Z) (measureframe : list Z)
    : outcome measures :=
  valid ← _ismeasureframevalid channels_nb measureframe;
  if negb valid then Ok no_measures
  else
    count ← word14 measureframe 0;
    recbatvoltage ← word14 measureframe 2;
    embatvoltage ← word14 measureframe 4;
    phasecurrent ← word28 measureframe 6;
    quadcurrent ← word28 measureframe 10;
    arrays ← channel_values measureframe (py_range channels_nb) [] [];
    Ok (Measures true count recbatvoltage embatvoltage
          (signed28 phasecurrent) (signed28 quadcurrent)
          arrays.1 arrays.2).


(** ** Configuration frame encoder *)

(** A Python value handed to [setconfig]. *)
Inductive pyval : Type :=
| PyInt (n : Z)
| PyFloat (x : Q)
| PyStr (s : string).

(** Modelled from the spec: [is_float] of [utils.py], which is not part of
    the sources at hand. The spec has the encoder "validate voltage is a
    real number". *)
Definition is_float (data : pyval) : bool :=
  match data with
  | PyFloat _ => true
  | _ => false
  end.

(** Modelled from the spec: [is_integer] of [utils.py], which is not part of
    the sources at hand. The spec has the encoder validate that each count
    "must be a non-negative integer", and the encoder itself tests no lower
    bound: the check passes on the integers from 0 on. *)
Definition is_integer (data : pyval) : bool :=
  match data with
  | PyInt n => 0 <=? n
  | _ => false
  end.

(** A value where Python needs a number (comparison with a float,
    [900/voltage]): the number, [TypeError] for a string. *)
Definition number (data : pyval) : outcome Q :=
  match data with
  | PyInt n => Ok (inject_Z n)
  | PyFloat x => Ok x
  | PyStr _ => Raise TypeError
  end.

(** A value where Python needs an integer ([&], [range]): the integer,
    [TypeError] otherwise. An integer compares with a bound as itself. *)
Definition integer (data : pyval) : outcome Z :=
  match data with
  | PyInt n => Ok n
  | _ => Raise TypeError
  end.

(** [if (not is_float(x)): raise BadConfigParamException()], then [x] as
    the rest of the function uses it. *)
Definition require_float (data : pyval) : outcome Q :=
  if negb (is_float data) then Raise BadConfigParamException
  else number data.

(** [if (not is_integer(x)): raise BadConfigParamException()], then [x] as
    the rest of the function uses it. *)
Definition require_integer (data : pyval) : outcome Z :=
  if negb (is_integer data) then Raise BadConfigParamException
  else integer data.

(** [round(x)] of Python 3 with one argument: the nearest integer, a tie
    going to the even one. *)
Definition py_round (x : Q) : Z :=
  let f := Qfloor x in
  match (x - inject_Z f ?= 1 # 2)%Q with
  | Lt => f
  | Gt => f + 1
  | Eq => if Z.even f then f else f + 1
  end.

(** [Ux = round((256*((900/voltage)-0.08-4.5))/50)]. The argument of
    [round] is taken exactly; the code rounds it to a float first, which
    can move a value lying on a tie to the other neighbour. *)
Definition Ux_of (voltage : Q) : Z :=
  py_round ((256 * ((900 / voltage) - 0.08 - 4.5)) / 50)%Q.

(** [Fx = round(frequency * ((pow(2, 28))/500000))]. The argument of
    [round] is taken exactly; the code rounds it to a float first, which
    can move a value lying on a tie to the other neighbour. *)
Definition Fx_of (frequency : Q) : Z :=
  py_round (frequency * (inject_Z (2 ^ 28) / 500000))%Q.

(** Modelled from the spec: [hex_to_bytes] of [utils.py], which is not part
    of the sources at hand. The encoder prints its ten numbers with
    ["%02X"] and has [hex_to_bytes] read them back; the spec has the
    ConfigFrame be those bytes, "exactly 10 bytes". *)
Definition hex_to_bytes (config_frame : list Z) : list Z := config_frame.

Definition _to_configframe
    (voltage frequency impuls_nb channels_nb integration_nb : pyval)
    : outcome (list Z) :=
  (* voltage operation *)
  voltage ← require_float voltage;
  if negb (Qle_bool voltage INJVOLT_MAX && Qle_bool INJVOLT_MIN voltage)
  then Raise BadConfigParamException
  else
  let Ux := Ux_of voltage in
  if Ux >? UX_MAX then Raise BadConfigParamException
  else
  (* frequency *)
  frequency ← require_float frequency;
  if negb (Qle_bool frequency INJFREQ_MAX && Qle_bool INJFREQ_MIN frequency)
  then Raise BadConfigParamException
  else
  let Fx := Fx_of frequency in
  if Fx >? FX_MAX then Raise BadConfigParamException
  else
  (* impulsion number *)
  impuls_nb ← require_integer impuls_nb;
  if negb (impuls_nb <=? IX_MAX) then Raise BadConfigParamException
  else
  (* channels number *)
  channels_nb ← require_integer channels_nb;
  if negb (channels_nb <=? UX_MAX) then Raise BadConfigParamException
  else
  (* integration constant *)
  integration_nb ← require_integer integration_nb;
  if negb (integration_nb <=? TX_MAX) then Raise BadConfigParamException
  else
  (* building to configuration frame *)
  Ok (hex_to_bytes
        [ 0x81 + Z.shiftl (Z.land Ux 0x003F) 1;
          Z.shiftr (Z.land Ux 0x00C0) 6;
          Z.land Fx 0x0000007F;
          Z.shiftr (Z.land Fx 0x00003F80) 7;
          Z.shiftr (Z.land Fx 0x001FC000) 14;
          Z.shiftr (Z.land Fx 0x0FE00000) 21;
          Z.land impuls_nb 0x7F;
          Z.land channels_nb 0x7F;
          Z.land integration_nb 0x007F;
          Z.shiftr (Z.land integration_nb 0x3F80) 7 ]).

(** ** Acknowledgement verifier *)

(** [for l in range(len(configframe)): if (ackframe[l] != configframe[l]):
    return False, 0, 0], over the remaining values of [l]; [Ok true] when
    the loop runs to its end. *)
Fixpoint echo_loop (ackframe configframe : list Z) (range : list nat)
    : outcome bool :=
  match range with
  | [] => Ok true
  | l :: range =>
      a ← getitem ackframe l;
      c ← getitem configframe l;
      if negb (a =? c) then Ok false
      else echo_loop ackframe configframe range
  end.

Definition _verifconfigack (ackframe configframe : list Z)
    : outcome (bool * Z * Z) :=
  if negb (length ackframe =? length configframe + 1)%nat
  then Ok (false, 0, 0)
  else
    echoed ← echo_loop ackframe configframe (seq 0 (length configframe));
    if negb echoed then Ok (false, 0, 0)
    else
      (* decode run and board identifiant   0 Id5 Id4 Id3 Id2 Id1 Id0 Fct0 *)
      last ← getlast ackframe;
      let run := Z.land last 0x01 in
      let boardid := Z.shiftr (Z.land last 0x7E) 1 in
      Ok (true, run, boardid).

(** ** Physical value converter *)

(** [a / b] on floats: Python raises [ZeroDivisionError] when [b] is zero. *)
Definition py_div (a b : Q) : outcome Q :=
  if Qeq_bool b 0 then Raise ZeroDivisionError else Ok (a / b)%Q.

(** [pow(x, 2)] *)
Definition pow2 (x : Q) : Q := (x * x)%Q.

(** The two quotients are exact rationals: the code computes them in
    floats, where each product, sum and quotient is rounded and the squares
    of very small currents underflow to zero. *)
Definition toresistivityvalue
    (phasecurrentscalarvalue quadcurrentscalarvalue
     phasepotentialscalarvalue quadpotentialscalarvalue : Q)
    : outcome (Q * Q) :=
  phaseresistivityvalue ←
    py_div (1000 * ((phasepotentialscalarvalue * phasecurrentscalarvalue)
                    + (quadpotentialscalarvalue * quadcurrentscalarvalue)))%Q
           (pow2 phasecurrentscalarvalue + pow2 quadcurrentscalarvalue)%Q;
  quadresistivityvalue ←
    py_div (1000 * ((quadpotentialscalarvalue * phasecurrentscalarvalue)
                    - (phasepotentialscalarvalue * quadcurrentscalarvalue)))%Q
           (pow2 phasecurrentscalarvalue + pow2 quadcurrentscalarvalue)%Q;
  Ok (phaseresistivityvalue, quadresistivityvalue).

(** ** The session *)

(** The attributes of a [ResistESDevice] that its methods write. *)
Record device : Type := Device {
  recframe : list Z;
  voltage : pyval;
  frequency : pyval;
  impuls_nb : pyval;
  channels_nb : pyval;
  integration_nb : pyval
}.

(** The session after [__init__]. *)
Definition init_device : device :=
  Device [] (PyInt 0) (PyInt 0) (PyInt 0) (PyInt 0) (PyInt 0).

(** What the link answers during one [setconfig]: whether the reception
    buffer drains before [flushtimeout] seconds have passed, and the bytes
    that [self.receive(self.CONFIGRESPFRAME_LENGTH)] returns. *)
Record link_answers : Type := LinkAnswers {
  drained : bool;
  received : list Z
}.

(** [flush]: returns once a read comes back empty, raises when the
    timeout has passed first. *)
Definition flush (link : link_answers) : outcome unit :=
  if drained link then Ok () else Raise BadFlushException.

(** ["%f" % x] and ["%d" % x] take an integer or a float and raise
    [TypeError] on a string. *)
Definition format_number (data : pyval) : outcome unit :=
  match data with
  | PyStr _ => Raise TypeError
  | _ => Ok ()
  end.

(** [setconfig]: the outcome of the call and the session it leaves. Its
    first line formats the five parameters for the log. [send] writes the
    frame to the link and, without [wait_ack], returns; neither it nor
    [time.sleep] touches the session. *)
Definition setconfig (self : device)
    (voltage frequency impuls_nb channels_nb integration_nb : pyval)
    (link : link_answers) : outcome bool * device :=
  match
    format_number voltage ;; format_number frequency ;;
    format_number impuls_nb ;; format_number channels_nb ;;
    format_number integration_nb ;;
    _to_configframe voltage frequency impuls_nb channels_nb integration_nb
  with
  | Raise e => (Raise e, self)
  | Ok configframe =>
      match flush link with
      | Raise e => (Raise e, self)
      | Ok _ =>
          let ackframe := received link in
          match _verifconfigack ackframe configframe with
          | Raise e => (Raise e, self)
          | Ok (ack, run, boardid) =>
              if ack
              then (Ok true,
                    Device (recframe self) voltage frequency impuls_nb
                      channels_nb integration_nb)
              else (Raise BadAckException, self)
          end
      end
  end.

(** [updatereceptionframe], for the bytes [self.link.read] returned. *)
Definition updatereceptionframe (self : device) (bytes : list Z) : device :=
  if (0 <? length bytes)%nat
  then Device (foldl (λ recframe byte, recframe ++ [byte]) (recframe self) bytes)
         (voltage self) (frequency self) (impuls_nb self) (channels_nb self)
         (integration_nb self)
  else self.

(** [getrawmeasures]: the outcome of the call and the session it leaves.
    A session only ever holds an integer in [self.channels_nb]: [__init__]
    stores [0], [setconfig] a value that passed [is_integer]. *)
Definition getrawmeasures (self : device) : outcome measures * device :=
  match integer (channels_nb self)
        ≫= λ c, _from_measureframe c (recframe self) with
  | Raise e => (Raise e, self)
  | Ok m =>
      if result m
      then (Ok m, Device [] (voltage self) (frequency self) (impuls_nb self)
                    (channels_nb self) (integration_nb self))
      else (Ok m, self)
  end.

(** ** Field names *)

Definition DATEFIELD : string := "date".
Definition POTENTIALFIELDS_LIST : list string :=
  ["phase potential(mV) (ch%d)"; "quad. potential(mV) (ch%d)"].
Definition RESISTIVITYFIELDS_LIST : list string :=
  ["phase resistivity(kOhm.m) (ch%d)"; "quad. resistivity(kOhm.m) (ch%d)"].

(** [fmt % i] for a format with one [%d]. *)
Fixpoint format_d (fmt : string) (i : string) : string :=
  match fmt with
  | String (Ascii.Ascii true false true false false true false false)
      (String (Ascii.Ascii false false true false false true true false) rest) =>
      i +:+ rest   (* "%d" *)
  | String ch rest => String ch (format_d rest i)
  | EmptyString => EmptyString
  end.

(** Python lists are objects: a name holds the identity of a list, and the
    heap maps each identity to the list's present content. *)
Abbreviation heap := (gmap nat (list string)).

(** The identity of the list that the class attribute [COMMONFIELDS_LIST]
    is bound to when the class body has run. *)
Definition COMMONFIELDS_LIST : nat := 0%nat.

Definition class_heap : heap :=
  {[ COMMONFIELDS_LIST :=
       [ "count"; "rec. batt. voltage(V)"; "em. batt. voltage(V)";
         "phase current(mA)"; "quad. current(mA)" ] ]}.

(** [l.append(x)] *)
Definition append (l : nat) (x : string) (h : heap) : heap :=
  alter (λ xs, xs ++ [x]) l h.

(** A list expression such as [[a] + b]: a new object. *)
Definition new_list (xs : list string) (h : heap) : nat * heap :=
  let l := fresh (dom h) in (l, <[l := xs]> h).

(** [for n in range(len(names)): l.append(names[n] % i)] *)
Definition append_names (l : nat) (names : list string) (i : nat) (h : heap)
    : heap :=
  foldl (λ h n, append l (format_d (names !!! n) (pretty i)) h)
        h (seq 0 (length names)).

(** [getallfieldnames]: the identity of the list it returns, and the heap
    it leaves. *)
Definition getallfieldnames (channels_nb : Z) (h : heap) : nat * heap :=
  let fieldnames := COMMONFIELDS_LIST in
  let h :=
    foldl (λ h i,
             let h := append_names fieldnames POTENTIALFIELDS_LIST i h in
             append_names fieldnames RESISTIVITYFIELDS_LIST i h)
          h (py_range channels_nb) in
  (fieldnames, h).

(** The first lines of [acquiremeasures], which build the header row
    [csvline]: its identity and the heap they leave. The second inner loop
    runs over [range(len(self.POTENTIALFIELDS_LIST))] and reads
    [RESISTIVITYFIELDS_LIST]. *)
Definition acquiremeasures_header (channels_nb : Z) (datetimedisplay : bool)
    (h : heap) : nat * heap :=
  let '(csvline, h) :=
    if datetimedisplay
    then new_list ([DATEFIELD] ++ default [] (h !! COMMONFIELDS_LIST)) h
    else (COMMONFIELDS_LIST, h) in
  let h :=
    foldl (λ h n,
             let h := append_names csvline POTENTIALFIELDS_LIST n h in
             foldl (λ h i,
                      append csvline
                        (format_d (RESISTIVITYFIELDS_LIST !!! i) (pretty n)) h)
                   h (seq 0 (length POTENTIALFIELDS_LIST)))
          h (py_range channels_nb) in
  (csvline, h).

(** ** The frame format in the words of the spec *)

(** "Bit 7 is 1" and "bit 7 is 0", as the spec words them, over the whole
    frame: [tag k] is the bit that byte [k] must carry. *)
Fixpoint tags_from (tag : nat → bool) (k : nat) (frame : list Z) : bool :=
  match frame with
  | [] => true
  | byte :: frame =>
      Bool.eqb (Z.testbit byte 7) (tag k) && tags_from tag (S k) frame
  end.

(** The tags as the spec lists them: bytes 0, 2, 4, 6, 10 and the first
    byte of each 4-byte field of a channel block carry 1, every other byte
    carries 0. *)
Definition spec_tag (k : nat) : bool :=
  if (k <? 14)%nat then existsb (Nat.eqb k) [0; 2; 4; 6; 10]%nat
  else ((k - 14) mod 4 =? 0)%nat.

(** The tags as the validator's header guards have them: byte 1 carries 1
    as well. *)
Definition frame_tag (k : nat) : bool :=
  if (k <? 14)%nat then existsb (Nat.eqb k) [0; 1; 2; 4; 6; 10]%nat
  else ((k - 14) mod 4 =? 0)%nat.

(** The decode of a 4-byte signed field as the spec words it: the sum of
    [(byte[k] & 0x7F) << (7*k)], low byte first, minus [2^28] when the sum
    is above [2^27 - 1]. *)
Definition spec_signed28 (raw : Z) : Z :=
  if raw >? 2 ^ 27 - 1 then raw - 2 ^ 28 else raw.

Definition spec_field28 (frame : list Z) (o : nat) : option Z :=
  match take 4 (drop o frame) with
  | [b0; b1; b2; b3] =>
      Some (spec_signed28
              (Z.shiftl (Z.land b0 0x7F) 0 + Z.shiftl (Z.land b1 0x7F) 7
               + Z.shiftl (Z.land b2 0x7F) 14 + Z.shiftl (Z.land b3 0x7F) 21))
  | _ => None
  end.

(** ** Notions used in the statements *)

(** The call returns: it raises nothing. *)
Definition returns {A} (m : outcome A) : Prop := ∃ a, m = Ok a.

(** The acknowledgement echoes the configuration frame and adds one
    byte. *)
Definition echoes (ackframe configframe : list Z) : Prop :=
  length ackframe = (length configframe + 1)%nat
  ∧ take (length configframe) ackframe = configframe.

#[local] Instance echoes_dec ackframe configframe :
  Decision (echoes ackframe configframe).
Proof. unfold echoes. apply _. Defined.

(** "Not a non-negative integer, or above the limit". *)
Definition bad_count (data : pyval) (limit : Z) : Prop :=
  match data with
  | PyInt n => n < 0 ∨ limit < n
  | _ => True
  end.

(** The length of the list with identity [l], when there is one. *)
Definition list_len (h : heap) (l : nat) : option Z :=
  (λ xs, Z.of_nat (length xs)) <$> h !! l.

(** The raw 28-bit value at offset [o] of the frame is [raw], and [v] is
    its sign-corrected value. *)
Definition decoded_at (frame : list Z) (o : nat) (v : Z) : Prop :=
  ∃ raw, word28 frame o = Ok raw ∧ v = signed28 raw.

(** ** Sample frames, sessions and link answers *)

(** A frame for one channel with every tag as the validator wants it. *)
Definition frame_one_channel : list Z :=
  [ 0x85; 0x81; 0x80; 0x10; 0x80; 0x11; 0x87; 0; 0; 0x7F; 0x80; 1; 2; 3;
    0x81; 0; 0; 0x40;  0x82; 0; 0; 0 ].

(** A frame for two channels that the validator accepts. Its four
    potential fields hold 1, 2, 3 and 4. *)
Definition frame_two_channels : list Z :=
  [ 0x80; 0x80; 0x80; 0; 0x80; 0; 0x80; 0; 0; 0; 0x80; 0; 0; 0;
    0x81; 0; 0; 0;  0x82; 0; 0; 0;
    0x83; 0; 0; 0;  0x84; 0; 0; 0 ].

(** A frame without channels whose phase current field holds the 28-bit
    pattern [2^27]: only bit 6 of its fourth byte is set. *)
Definition frame_min_current : list Z :=
  [ 0x80; 0x80; 0x80; 0; 0x80; 0; 0x80; 0; 0; 0x40; 0x80; 0; 0; 0 ].

(** A frame without channels tagged as the spec lists the tags: bit 7 is
    set on bytes 0, 2, 4, 6 and 10 only. *)
Definition frame_spec_tags : list Z :=
  [ 0x80; 0; 0x80; 0; 0x80; 0; 0x80; 0; 0; 0; 0x80; 0; 0; 0 ].

(** A session configured for two channels that has received the 22 bytes
    of a one-channel frame. *)
Definition session_short_frame : device :=
  Device frame_one_channel (PyFloat 100) (PyFloat 10) (PyInt 1) (PyInt 2)
    (PyInt 1).

(** A session configured for one channel that has received a whole
    frame. *)
Definition session_whole_frame : device :=
  Device frame_one_channel (PyFloat 100) (PyFloat 10) (PyInt 1) (PyInt 1)
    (PyInt 1).

(** The link's answers to a configuration of 100 V, 10 kHz and three
    counts of 1: the buffer drains, and the frame comes back with 0x05. *)
Definition link_echo : link_answers :=
  LinkAnswers true
    [0xAF; 0x00; 0x79; 0x29; 0x00; 0x00; 0x01; 0x01; 0x01; 0x00; 0x05].

(** ** Real measures *)

(** [(potentialcodedvalue*5000)/pow(2, 28)], in mV. *)
Definition topotentialrealvalue (potentialcodedvalue : Z) : Q :=
  (inject_Z (potentialcodedvalue * 5000) / inject_Z (2 ^ 28))%Q.

(** [(currentcodedvalue*5000000)/(self.RI*pow(2, 28))], in mA. *)
Definition tocurrentrealvalue (currentcodedvalue : Z) : Q :=
  (inject_Z (currentcodedvalue * 5000000) / (RI * inject_Z (2 ^ 28)))%Q.

(** [(18.3*batvoltage)/16383], in V. *)
Definition tobatteryrealvalue (batvoltage : Z) : Q :=
  ((18.3 * inject_Z batvoltage) / 16383)%Q.

(** The tuple returned by [getrealmeasures]. *)
Record realmeasures : Type := RealMeasures {
  rm_result : bool;
  rm_count : Z;
  rm_recrealbatvoltage : Q;
  rm_emrealbatvoltage : Q;
  rm_phasecurrentrealvalue : Q;
  rm_quadcurrentrealvalue : Q;
  rm_phasepotentialrealarray : list Q;
  rm_quadpotentialrealarray : list Q
}.

(** The tuple returned by [getallmeasures]. *)
Record allmeasures : Type := AllMeasures {
  am_result : bool;
  am_count : Z;
  am_recrealbatvoltage : Q;
  am_emrealbatvoltage : Q;
  am_phasecurrentrealvalue : Q;
  am_quadcurrentrealvalue : Q;
  am_phasepotentialrealarray : list Q;
  am_quadpotentialrealarray : list Q;
  am_phaseresistivityarray : list Q;
  am_quadresistivityarray : list Q
}.

Section Magnitude.

(** [math.sqrt] on the floats it is given here, sums of two squares. Its
    results are logged and kept in local lists that no method returns. *)
Variable sqrt : Q → Q.

Definition fromphaseandquadrature (phasevalue quadvalue : Q) : Q :=
  sqrt (pow2 phasevalue + pow2 quadvalue)%Q.

(** The body of [for l in range(len(phasepotentialarray))] of
    [getrealmeasures], threading the three lists it appends to. *)
Fixpoint realmeasures_loop (phasepotentialarray quadpotentialarray : list Z)
    (range : list nat)
    (phasepotentialrealarray quadpotentialrealarray potentialrealarray
       : list Q)
    : outcome (list Q * list Q * list Q) :=
  match range with
  | [] =>
      Ok (phasepotentialrealarray, quadpotentialrealarray,
          potentialrealarray)
  | l :: range =>
      p ← getitem phasepotentialarray l;
      let phasepotentialrealarray :=
        phasepotentialrealarray ++ [topotentialrealvalue p] in
      q ← getitem quadpotentialarray l;
      let quadpotentialrealarray :=
        quadpotentialrealarray ++ [topotentialrealvalue q] in
      pl ← getitem phasepotentialrealarray l;
      ql ← getitem quadpotentialrealarray l;
      let potentialrealarray :=
        potentialrealarray ++ [fromphaseandquadrature pl ql] in
      realmeasures_loop phasepotentialarray quadpotentialarray range
        phasepotentialrealarray quadpotentialrealarray potentialrealarray
  end.

(** [getrealmeasures]: the outcome of the call and the session it
    leaves. *)
Definition getrealmeasures (self : device) : outcome realmeasures * device :=
  let '(raw, self) := getrawmeasures self in
  match raw with
  | Raise e => (Raise e, self)
  | Ok m =>
      let recrealbatvoltage := tobatteryrealvalue (recbatvoltage m) in
      let emrealbatvoltage := tobatteryrealvalue (embatvoltage m) in
      if result m
      then
        let phasecurrentrealvalue := tocurrentrealvalue (phasecurrent m) in
        let quadcurrentrealvalue := tocurrentrealvalue (quadcurrent m) in
        let currentrealvalue :=
          fromphaseandquadrature phasecurrentrealvalue
            quadcurrentrealvalue in
        (arrays ←
           realmeasures_loop (phasevoltagearray m) (quadvoltagearray m)
             (seq 0 (length (phasevoltagearray m))) [] [] [];
         Ok (RealMeasures (result m) (count m) recrealbatvoltage
               emrealbatvoltage phasecurrentrealvalue quadcurrentrealvalue
               arrays.1.1 arrays.1.2),
         self)
      else
        (Ok (RealMeasures (result m) (count m) recrealbatvoltage
               emrealbatvoltage 0 0 [] []),
         self)
  end.

(** The body of [for l in range(len(phasepotentialarray))] of
    [getallmeasures], threading the five lists it appends to. *)
Fixpoint allmeasures_loop (phasecurrentrealvalue quadcurrentrealvalue : Q)
    (phasepotentialarray quadpotentialarray : list Z) (range : list nat)
    (phasepotentialrealarray quadpotentialrealarray potentialrealarray
     phaseresistivityarray quadresistivityarray : list Q)
    : outcome (list Q * list Q * list Q * list Q * list Q) :=
  match range with
  | [] =>
      Ok (phasepotentialrealarray, quadpotentialrealarray,
          potentialrealarray, phaseresistivityarray, quadresistivityarray)
  | l :: range =>
      p ← getitem phasepotentialarray l;
      let phasepotentialrealarray :=
        phasepotentialrealarray ++ [topotentialrealvalue p] in
      q ← getitem quadpotentialarray l;
      let quadpotentialrealarray :=
        quadpotentialrealarray ++ [topotentialrealvalue q] in
      pl ← getitem phasepotentialrealarray l;
      ql ← getitem quadpotentialrealarray l;
      let potentialrealarray :=
        potentialrealarray ++ [fromphaseandquadrature pl ql] in
      pl ← getitem phasepotentialrealarray l;
      ql ← getitem quadpotentialrealarray l;
      resistivity ←
        toresistivityvalue phasecurrentrealvalue quadcurrentrealvalue pl ql;
      let phaseresistivityarray :=
        phaseresistivityarray ++ [resistivity.1] in
      let quadresistivityarray :=
        quadresistivityarray ++ [resistivity.2] in
      allmeasures_loop phasecurrentrealvalue quadcurrentrealvalue
        phasepotentialarray quadpotentialarray range
        phasepotentialrealarray quadpotentialrealarray potentialrealarray
        phaseresistivityarray quadresistivityarray
  end.

(** [getallmeasures]: the outcome of the call and the session it
    leaves. *)
Definition getallmeasures (self : device) : outcome allmeasures * device :=
  let '(raw, self) := getrawmeasures self in
  match raw with
  | Raise e => (Raise e, self)
  | Ok m =>
      let recrealbatvoltage := tobatteryrealvalue (recbatvoltage m) in
      let emrealbatvoltage := tobatteryrealvalue (embatvoltage m) in
      if result m
      then
        let phasecurrentrealvalue := tocurrentrealvalue (phasecurrent m) in
        let quadcurrentrealvalue := tocurrentrealvalue (quadcurrent m) in
        let currentrealvalue :=
          fromphaseandquadrature phasecurrentrealvalue
            quadcurrentrealvalue in
        (arrays ←
           allmeasures_loop phasecurrentrealvalue quadcurrentrealvalue
             (phasevoltagearray m) (quadvoltagearray m)
             (seq 0 (length (phasevoltagearray m))) [] [] [] [] [];
         Ok (AllMeasures (result m) (count m) recrealbatvoltage
               emrealbatvoltage phasecurrentrealvalue quadcurrentrealvalue
               arrays.1.1.1.1 arrays.1.1.1.2 arrays.1.2 arrays.2),
         self)
      else
        (Ok (AllMeasures (result m) (count m) recrealbatvoltage
               emrealbatvoltage 0 0 [] [] [] []),
         self)
  end.

End Magnitude.

(** ** The acquisition loop *)

(** The first two statements of one turn of the loop of [acquiremeasures],
    [self.updatereceptionframe(None, 0.1)] and [self.getallmeasures()],
    for the bytes the link returns in that turn. *)
Definition poll (sqrt : Q → Q) (self : device) (bytes : list Z)
    : outcome allmeasures * device :=
  getallmeasures sqrt (updatereceptionframe self bytes).

(** Turn after turn, for the bytes the link returns in each turn: the
    outcomes, and the session left at the end. The loop catches
    [KeyboardInterrupt] only, so a turn that raises ends it. *)
Fixpoint polls (sqrt : Q → Q) (self : device) (reads : list (list Z))
    : list (outcome allmeasures) * device :=
  match reads with
  | [] => ([], self)
  | bytes :: reads =>
      match poll sqrt self bytes with
      | (Raise e, self) => ([Raise e], self)
      | (Ok m, self) =>
          let '(outcomes, self) := polls sqrt self reads in
          (Ok m :: outcomes, self)
      end
  end.

(** ** More field names *)

(** [getrealfieldnames]: the identity of the list it returns, and the heap
    it leaves. *)
Definition getrealfieldnames (channels_nb : Z) (h : heap) : nat * heap :=
  let fieldnames := COMMONFIELDS_LIST in
  let h :=
    foldl (λ h i, append_names fieldnames POTENTIALFIELDS_LIST i h)
          h (py_range channels_nb) in
  (fieldnames, h).

(** ** The frame layout of the docstring of [_from_measureframe] *)

(** A byte [1 D6 .. D0] and a byte [0 D6 .. D0] for the seven low bits of
    [x]. *)
Definition tagged (x : Z) : Z := 0x80 + Z.land x 0x7F.
Definition untagged (x : Z) : Z := Z.land x 0x7F.

(** [1 D6 .. D0] and [1 D13 .. D7]: the measure count. *)
Definition layout_count (v : Z) : list Z :=
  [tagged v; tagged (Z.shiftr v 7)].

(** [1 D6 .. D0] and [0 D13 .. D7]: a battery voltage. *)
Definition layout14 (v : Z) : list Z :=
  [tagged v; untagged (Z.shiftr v 7)].

(** [1 D6 .. D0], [0 D13 .. D7], [0 D20 .. D14] and [0 D27 .. D21]: a
    current or a potential, negative ones in two's complement. *)
Definition layout28 (v : Z) : list Z :=
  [tagged v; untagged (Z.shiftr v 7); untagged (Z.shiftr v 14);
   untagged (Z.shiftr v 21)].

(** The whole frame: count, two battery voltages, two currents, then the
    phase and the quadrature potential of each channel. *)
Definition layout_frame (m : measures) : list Z :=
  layout_count (count m) ++ layout14 (recbatvoltage m)
  ++ layout14 (embatvoltage m)
  ++ layout28 (phasecurrent m) ++ layout28 (quadcurrent m)
  ++ concat (zip_with (λ p q, layout28 p ++ layout28 q)
               (phasevoltagearray m) (quadvoltagearray m)).

(** ** More notions used in the statements *)

(** The parameters that [_to_configframe] accepts: floats in their ranges
    and integer counts from 0, by [is_integer], up to their limits. *)
Definition valid_params (v f i c t : pyval) : bool :=
  match v, f, i, c, t with
  | PyFloat x, PyFloat y, PyInt ni, PyInt nc, PyInt nt =>
      Qle_bool INJVOLT_MIN x && Qle_bool x INJVOLT_MAX
      && Qle_bool INJFREQ_MIN y && Qle_bool y INJFREQ_MAX
      && (ni <=? IX_MAX) && (nc <=? UX_MAX) && (nt <=? TX_MAX)
      && (0 <=? ni) && (0 <=? nc) && (0 <=? nt)
  | _, _, _, _, _ => false
  end.

(** The ten numbers that [_to_configframe] appends to [config_frame]. *)
(** The ranges the encoder tests, on a float voltage, a float frequency and
    three integer counts. *)
Definition in_ranges (x y : Q) (ni nc nt : Z) : Prop :=
  (INJVOLT_MIN <= x)%Q ∧ (x <= INJVOLT_MAX)%Q
  ∧ (INJFREQ_MIN <= y)%Q ∧ (y <= INJFREQ_MAX)%Q
  ∧ ni ≤ IX_MAX ∧ nc ≤ UX_MAX ∧ nt ≤ TX_MAX.

Definition config_frame_bytes (Ux Fx impuls_nb channels_nb integration_nb : Z)
    : list Z :=
  [ 0x81 + Z.shiftl (Z.land Ux 0x003F) 1;
    Z.shiftr (Z.land Ux 0x00C0) 6;
    Z.land Fx 0x0000007F;
    Z.shiftr (Z.land Fx 0x00003F80) 7;
    Z.shiftr (Z.land Fx 0x001FC000) 14;
    Z.shiftr (Z.land Fx 0x0FE00000) 21;
    Z.land impuls_nb 0x7F;
    Z.land channels_nb 0x7F;
    Z.land integration_nb 0x007F;
    Z.shiftr (Z.land integration_nb 0x3F80) 7 ].

(** The tag bits of a frame. *)
Definition tags (frame : list Z) : list bool :=
  map (λ byte, Z.testbit byte 7) frame.

(** A value that a field of 14 bits holds, and a value that a signed
    field of 28 bits holds and that the decoder gives back. *)
Definition fits14 (v : Z) : Prop := 0 ≤ v < 2 ^ 14.
Definition fits28 (v : Z) : Prop := - 2 ^ 27 < v < 2 ^ 27.

(** The values that [_from_measureframe] can return in a signed field. *)
Definition decoded28 (v : Z) : Prop := - 2 ^ 27 < v ≤ 2 ^ 27.

(** The session holds an integer channel count of at most 255, as
    [__init__] and [setconfig] store it. *)
Definition session_ok (self : device) : Prop :=
  ∃ c, channels_nb self = PyInt c ∧ c ≤ UX_MAX.

(** The only exception of the validator and of the decoder is
    [IndexError]. *)
Definition only_index {A} (m : outcome A) : Prop :=
  ∀ e, m = Raise e → e = IndexError.

(** Two frames of one length carry the same bytes below offset [n]. *)
Definition same_below (n : nat) (frame1 frame2 : list Z) : Prop :=
  length frame1 = length frame2 ∧ take n frame1 = take n frame2.

(** What [getallmeasures] returns when there is no measure: the battery
    voltages are those of the code 0. *)
Definition no_allmeasures : allmeasures :=
  AllMeasures false 0 (tobatteryrealvalue 0) (tobatteryrealvalue 0) 0 0
    [] [] [] [].

(** A session configured for one channel whose buffer holds a whole frame
    and one byte more, and one whose buffer is empty. *)
Definition session_overlong : device :=
  Device (frame_one_channel ++ [0x80]) (PyFloat 100) (PyFloat 10) (PyInt 1)
    (PyInt 1) (PyInt 1).

Definition session_empty : device :=
  Device [] (PyFloat 100) (PyFloat 10) (PyInt 1) (PyInt 1) (PyInt 1).

(** A square root to 30 binary places, for the instances of [sqrt]: the
    float that [math.sqrt] returns is such an approximation. *)
Definition sqrt_approx (x : Q) : Q :=
  (inject_Z (Z.sqrt (Qfloor (x * inject_Z (4 ^ 30)))) / inject_Z (2 ^ 30))%Q.

(** The resistivities of one channel, for the current codes of the
    frame. *)
Definition channel_resistivity (m : measures) (codes : Z * Z) (r : Q * Q)
    : Prop :=
  toresistivityvalue (tocurrentrealvalue (phasecurrent m))
    (tocurrentrealvalue (quadcurrent m))
    (topotentialrealvalue codes.1) (topotentialrealvalue codes.2)
  = Ok r.

(** A session configured for one channel whose buffer holds a frame with
    both current codes zero and the potentials 1 and 2. *)
Definition session_zero_current : device :=
  Device [0x80; 0x80; 0x80; 0; 0x80; 0; 0x80; 0; 0; 0; 0x80; 0; 0; 0;
          0x81; 0; 0; 0;  0x82; 0; 0; 0]
    (PyFloat 100) (PyFloat 10) (PyInt 1) (PyInt 1) (PyInt 1).

(** The names that one channel adds: its two potentials, and its two
    resistivities after them. *)
Definition potential_names (i : nat) : list string :=
  [ "phase potential(mV) (ch" +:+ pretty i +:+ ")";
    "quad. potential(mV) (ch" +:+ pretty i +:+ ")" ].

Definition all_names (i : nat) : list string :=
  potential_names i
  ++ [ "phase resistivity(kOhm.m) (ch" +:+ pretty i +:+ ")";
       "quad. resistivity(kOhm.m) (ch" +:+ pretty i +:+ ")" ].

(** * Properties *)

(** ** Bit tests *)

#[local] Arguments Z.testbit : simpl never.
#[local] Arguments Z.land : simpl never.
#[local] Arguments Z.shiftl : simpl never.
#[local] Arguments Z.shiftr : simpl never.

Lemma land_0x80 (byte : Z) :
  Z.land byte 0x80 = if Z.testbit byte 7 then 0x80 else 0.
Proof.
  apply Z.bits_inj'. intros n Hn.
  rewrite Z.land_spec.
  change 0x80 with (2 ^ 7).
  destruct (Z.testbit byte 7) eqn:Hbit.
  - rewrite Z.pow2_bits_eqb by lia.
    destruct (Z.eqb_spec 7 n) as [<- | Hne].
    + now rewrite Hbit.
    + apply andb_false_r.
  - rewrite Z.bits_0, Z.pow2_bits_eqb by lia.
    destruct (Z.eqb_spec 7 n) as [<- | Hne].
    + now rewrite Hbit.
    + apply andb_false_r.
Qed.

Lemma isbit7valueat1_testbit (byte : Z) :
  _isbit7valueat1 byte = Z.testbit byte 7.
Proof.
  unfold _isbit7valueat1. rewrite land_0x80.
  now destruct (Z.testbit byte 7).
Qed.

Lemma isbit7valueat0_testbit (byte : Z) :
  _isbit7valueat0 byte = negb (Z.testbit byte 7).
Proof.
  unfold _isbit7valueat0. rewrite land_0x80.
  now destruct (Z.testbit byte 7).
Qed.

(** ** The validator *)

Lemma guard_true test frame i rest :
  guard test frame i rest = Ok true →
  ∃ byte, frame !! i = Some byte ∧ test byte = true ∧ rest = Ok true.
Proof.
  unfold guard, getitem, mbind, outcome_bind.
  destruct (frame !! i) as [byte|]; [|discriminate].
  destruct (test byte) eqn:Htest; cbn; [|discriminate].
  intros ->. now exists byte.
Qed.

(** A frame of the wrong length never reaches a guard. *)
Lemma ismeasureframevalid_length (c : Z) (frame : list Z) :
  Z.of_nat (length frame) ≠ 14 + 8 * c →
  _ismeasureframevalid c frame = Ok false.
Proof.
  intros Hlen. unfold _ismeasureframevalid.
  destruct (length frame =? 0)%nat; [reflexivity|].
  unfold MEASUREFRAME_MINLENGTH, POTENTIALVALUE_LENGTH.
  destruct (Z.eqb_spec (Z.of_nat (length frame)) (Z.of_nat 14 + c * 2 * 4))
    as [Heq | Hne]; [lia | reflexivity].
Qed.

Lemma ismeasureframevalid_true (c : Z) (frame : list Z) :
  _ismeasureframevalid c frame = Ok true →
  Z.of_nat (length frame) = 14 + 8 * c
  ∧ tags_from frame_tag 0 (take 14 frame) = true
  ∧ channel_guards frame (py_range c) = Ok true.
Proof.
  intros Hvalid.
  destruct (Z.eq_dec (Z.of_nat (length frame)) (14 + 8 * c)) as [Hlen | Hlen];
    [|rewrite ismeasureframevalid_length in Hvalid by done; discriminate].
  split; [done|].
  unfold _ismeasureframevalid in Hvalid.
  destruct (length frame =? 0)%nat; [discriminate|].
  destruct (negb _); [discriminate|].
  repeat match type of Hvalid with
  | guard _ _ _ _ = Ok true =>
      apply guard_true in Hvalid as (? & ? & ? & Hvalid)
  end.
  split; [|done].
  rewrite ?isbit7valueat1_testbit in *.
  rewrite ?isbit7valueat0_testbit in *.
  do 14 (destruct frame as [|? frame]; [discriminate|]).
  simplify_eq/=.
  repeat match goal with
  | H : Z.testbit _ 7 = true |- _ => rewrite H; clear H
  | H : negb (Z.testbit _ 7) = true |- _ =>
      apply negb_true_iff in H; rewrite H; clear H
  end.
  reflexivity.
Qed.

#[local] Arguments _isbit7valueat1 : simpl never.
#[local] Arguments _isbit7valueat0 : simpl never.

(** Case analysis on the tag bits of a frame, first byte first; a byte
    with the wrong tag settles the goal at once. *)
Ltac split_tags :=
  rewrite ?isbit7valueat1_testbit, ?isbit7valueat0_testbit;
  repeat match goal with
  | |- context [Z.testbit ?byte 7] =>
      destruct (Z.testbit byte 7); cbn; try reflexivity
  end.

(** With the right length, the validator is its header guards followed by
    its channel guards. *)
Lemma ismeasureframevalid_header (c : Z) (frame : list Z) :
  0 ≤ c →
  Z.of_nat (length frame) = 14 + 8 * c →
  _ismeasureframevalid c frame =
    if tags_from frame_tag 0 (take 14 frame)
    then channel_guards frame (py_range c)
    else Ok false.
Proof.
  intros Hc Hlen. unfold _ismeasureframevalid.
  destruct (Nat.eqb_spec (length frame) 0) as [Hnil | _]; [lia|].
  unfold MEASUREFRAME_MINLENGTH at 1, POTENTIALVALUE_LENGTH.
  rewrite (proj2 (Z.eqb_eq _ _)) by lia. cbn [negb].
  generalize (channel_guards frame (py_range c)). intros rest.
  do 14 (destruct frame as [|? frame]; [cbn [length] in Hlen; lia|]).
  clear Hlen. unfold guard, getitem. cbn.
  split_tags.
Qed.

Lemma ismeasureframevalid_tags (c : Z) (frame : list Z) :
  0 ≤ c ≤ 1 →
  Z.of_nat (length frame) = 14 + 8 * c →
  _ismeasureframevalid c frame = Ok (tags_from frame_tag 0 frame).
Proof.
  intros Hc Hlen. rewrite ismeasureframevalid_header by lia.
  assert (c = 0 ∨ c = 1) as [-> | ->] by lia.
  - rewrite firstn_all2 by lia. now destruct (tags_from _ _ _).
  - do 22 (destruct frame as [|? frame]; [cbn [length] in Hlen; lia|]).
    destruct frame; [|cbn [length] in Hlen; lia].
    clear. change (py_range 1) with [0%nat].
    unfold channel_guards, guard, getitem. cbn.
    split_tags.
Qed.

(** ** Totality: with a non-negative channel count nothing is read out of
    the frame's range *)

Lemma getitem_returns {A} (l : list A) (i : nat) :
  (i < length l)%nat → returns (getitem l i).
Proof.
  intros Hi. unfold getitem.
  destruct (lookup_lt_is_Some_2 l i Hi) as [x ->]. now exists x.
Qed.

Lemma guard_returns test frame i rest :
  (i < length frame)%nat → returns rest → returns (guard test frame i rest).
Proof.
  intros Hi Hrest. unfold guard.
  destruct (getitem_returns frame i Hi) as [byte ->]. cbn.
  destruct (test byte); cbn; [done | now exists false].
Qed.

Lemma channel_guards_returns frame range :
  Forall (λ i, (14 + i * 4 + 7 < length frame)%nat) range →
  returns (channel_guards frame range).
Proof.
  induction 1 as [|i range Hi _ IH]; cbn [channel_guards].
  - now exists true.
  - unfold MEASUREFRAME_MINLENGTH.
    repeat (apply guard_returns; [lia|]). exact IH.
Qed.

Lemma py_range_below (c : Z) :
  Forall (λ i, Z.of_nat i < c) (py_range c).
Proof.
  unfold py_range. apply Forall_forall. intros i Hi.
  apply elem_of_seq in Hi. lia.
Qed.

Lemma ismeasureframevalid_returns (c : Z) (frame : list Z) :
  0 ≤ c → returns (_ismeasureframevalid c frame).
Proof.
  intros Hc.
  destruct (Z.eq_dec (Z.of_nat (length frame)) (14 + 8 * c)) as [Hlen | Hlen].
  - rewrite ismeasureframevalid_header by done.
    destruct (tags_from _ _ _); [|now exists false].
    apply channel_guards_returns.
    eapply Forall_impl; [apply py_range_below|]. cbn. lia.
  - rewrite ismeasureframevalid_length by done. now exists false.
Qed.

Lemma word14_returns frame o :
  (o + 1 < length frame)%nat → returns (word14 frame o).
Proof.
  intros Ho. unfold word14.
  destruct (getitem_returns frame o) as [b0 ->]; [lia|].
  destruct (getitem_returns frame (o + 1)) as [b1 ->]; [lia|].
  cbn. eexists; reflexivity.
Qed.

Lemma word28_returns frame o :
  (o + 3 < length frame)%nat → returns (word28 frame o).
Proof.
  intros Ho. unfold word28.
  destruct (getitem_returns frame o) as [b0 ->]; [lia|].
  destruct (getitem_returns frame (o + 1)) as [b1 ->]; [lia|].
  destruct (getitem_returns frame (o + 2)) as [b2 ->]; [lia|].
  destruct (getitem_returns frame (o + 3)) as [b3 ->]; [lia|].
  cbn. eexists; reflexivity.
Qed.

Lemma channel_values_returns frame range phase quad :
  Forall (λ i, (14 + i * 2 + 7 < length frame)%nat) range →
  returns (channel_values frame range phase quad).
Proof.
  intros Hrange. revert phase quad.
  induction Hrange as [|i range Hi _ IH]; intros phase quad;
    cbn [channel_values].
  - eexists; reflexivity.
  - unfold MEASUREFRAME_MINLENGTH.
    destruct (word28_returns frame (14 + i * 2)) as [p ->]; [lia|].
    destruct (word28_returns frame (14 + i * 2 + 4)) as [q ->]; [lia|].
    cbn. apply IH.
Qed.

Lemma from_measureframe_returns (c : Z) (frame : list Z) :
  0 ≤ c →
  ∃ m, _from_measureframe c frame = Ok m
       ∧ _ismeasureframevalid c frame = Ok (result m).
Proof.
  intros Hc. unfold _from_measureframe.
  destruct (_ismeasureframevalid c frame) as [[|]|e] eqn:Hvalid; cbn.
  - apply ismeasureframevalid_true in Hvalid as (Hlen & _ & _).
    destruct (word14_returns frame 0) as [? ->]; [lia|].
    destruct (word14_returns frame 2) as [? ->]; [lia|].
    destruct (word14_returns frame 4) as [? ->]; [lia|].
    destruct (word28_returns frame 6) as [? ->]; [lia|].
    destruct (word28_returns frame 10) as [? ->]; [lia|].
    destruct (channel_values_returns frame (py_range c) [] []) as [? ->].
    { eapply Forall_impl; [apply py_range_below|]. cbn. lia. }
    cbn. eexists; split; reflexivity.
  - now exists no_measures.
  - destruct (ismeasureframevalid_returns c frame Hc) as [b Hb]. congruence.
Qed.

(** ** Where the decoder reads *)

Lemma channel_values_offsets frame range :
  ∀ phase quad arrays,
    channel_values frame range phase quad = Ok arrays →
    ∃ ps qs,
      arrays = (phase ++ ps, quad ++ qs)
      ∧ Forall2 (λ i p, decoded_at frame (14 + i * 2) p) range ps
      ∧ Forall2 (λ i q, decoded_at frame (14 + i * 2 + 4) q) range qs.
Proof.
  induction range as [|i range IH]; intros phase quad arrays;
    cbn [channel_values].
  - intros [= <-]. exists [], []. now rewrite !app_nil_r.
  - unfold MEASUREFRAME_MINLENGTH.
    destruct (word28 frame (14 + i * 2)) as [p|] eqn:Hp; [|discriminate].
    destruct (word28 frame (14 + i * 2 + 4)) as [q|] eqn:Hq; [|discriminate].
    cbn. intros (ps & qs & -> & Hps & Hqs)%IH.
    exists (signed28 p :: ps), (signed28 q :: qs).
    rewrite <- !app_assoc. split; [reflexivity|].
    split; constructor; try done; [now exists p | now exists q].
Qed.

(** The decoder, on a frame it accepts: channel [i] is read at offsets
    [14 + 2*i] and [14 + 2*i + 4]. *)
Lemma from_measureframe_offsets (c : Z) (frame : list Z) (m : measures) :
  _from_measureframe c frame = Ok m →
  result m = true →
  Forall2 (λ i p, decoded_at frame (14 + i * 2) p)
    (py_range c) (phasevoltagearray m)
  ∧ Forall2 (λ i q, decoded_at frame (14 + i * 2 + 4) q)
      (py_range c) (quadvoltagearray m).
Proof.
  unfold _from_measureframe.
  destruct (_ismeasureframevalid c frame) as [[|]|]; cbn;
    [|intros [= <-]; discriminate | discriminate].
  repeat match goal with
  | |- context [word14 ?f ?o] => destruct (word14 f o); cbn; [|discriminate]
  | |- context [word28 ?f ?o] => destruct (word28 f o); cbn; [|discriminate]
  end.
  destruct (channel_values frame (py_range c) [] []) as [arrays|] eqn:Harrays;
    cbn; [|discriminate].
  apply channel_values_offsets in Harrays as (ps & qs & -> & Hps & Hqs).
  intros [= <-] _. cbn. now split.
Qed.

(** ** The decoder on two frames *)

(** C1, on the code: with two channels the decoder reads the fields of
    channel 1 at offsets 16 and 20 (stride 2), not at 22 and 26 (stride
    8). On [frame_two_channels], which the validator accepts, it returns
    32768 and 49152 for channel 1, where the bytes at offsets 22..25 and
    26..29 decode to 3 and 4. *)
Theorem C1_decoder_stride_two_channels :
  _ismeasureframevalid 2 frame_two_channels = Ok true
  ∧ _from_measureframe 2 frame_two_channels
    = Ok (Measures true 0 0 0 0 0 [1; 32768] [2; 49152])
  ∧ spec_field28 frame_two_channels (14 + 8 * 1) = Some 3
  ∧ spec_field28 frame_two_channels (14 + 8 * 1 + 4) = Some 4.
Proof. repeat split; vm_compute; reflexivity. Qed.

(** The sign correction of the code and that of the spec differ at one raw
    value only. *)
Lemma signed28_spec_signed28 (raw : Z) :
  raw ≠ 2 ^ 27 → signed28 raw = spec_signed28 raw.
Proof.
  intros Hraw. unfold signed28, spec_signed28.
  destruct (Z.gtb_spec raw (2 ^ 27)), (Z.gtb_spec raw (2 ^ 27 - 1)); lia.
Qed.

(** C3, on the code: the sign correction tests [raw > 2^27], so the raw
    pattern [2^27] is left as it is. On [frame_min_current], which the
    validator accepts, the phase current decodes to [2^27], where two's
    complement over 28 bits gives [-2^27]; the pattern [2^27 + 5] decodes
    to [5 - 2^27]. *)
Theorem C3_sign_correction_at_two_pow_27 :
  _from_measureframe 0 frame_min_current
    = Ok (Measures true 0 0 0 (2 ^ 27) 0 [] [])
  ∧ signed28 (2 ^ 27) = 2 ^ 27
  ∧ spec_signed28 (2 ^ 27) = - 2 ^ 27
  ∧ signed28 (2 ^ 27 + 5) = 5 - 2 ^ 27.
Proof. repeat split; vm_compute; reflexivity. Qed.

(** ** The validator's tags *)

(** C2, as claimed, fails: [frame_spec_tags] has the required length and
    every tag the claim asks for, and the validator rejects it, byte 1
    having bit 7 clear. *)
Lemma C2_spec_tags_rejected :
  Z.of_nat (length frame_spec_tags) = 14 + 8 * 0
  ∧ ¬ (_ismeasureframevalid 0 frame_spec_tags = Ok true
       ↔ tags_from spec_tag 0 frame_spec_tags = true).
Proof.
  split; [reflexivity|].
  intros [_ Hclaim]. specialize (Hclaim eq_refl). vm_compute in Hclaim.
  discriminate.
Qed.

(** C2, amended: for a frame of the required length [14 + 8*c], [c ≥ 0],
    the validator rejects as soon as one of bytes 0, 1, 2, 4, 6, 10 has
    bit 7 clear or one of bytes 3, 5, 7, 8, 9, 11, 12, 13 has bit 7 set,
    and a frame it accepts has all these tags; for [c ≤ 1] it accepts
    exactly when, moreover, the first byte of each 4-byte channel field
    has bit 7 set and the field's other bytes have it clear. *)
Theorem C2_validator_tags (c : Z) (frame : list Z) :
  0 ≤ c →
  Z.of_nat (length frame) = 14 + 8 * c →
  (tags_from frame_tag 0 (take 14 frame) = false →
   _ismeasureframevalid c frame = Ok false)
  ∧ (_ismeasureframevalid c frame = Ok true →
     tags_from frame_tag 0 (take 14 frame) = true)
  ∧ (c ≤ 1 → _ismeasureframevalid c frame = Ok (tags_from frame_tag 0 frame)).
Proof.
  intros Hc Hlen. repeat split.
  - intros Htags. rewrite ismeasureframevalid_header by done.
    now rewrite Htags.
  - intros Hvalid. now apply ismeasureframevalid_true in Hvalid.
  - intros Hc1. apply ismeasureframevalid_tags; [lia | done].
Qed.

Lemma C2_validator_tags_witness :
  0 ≤ 1
  ∧ Z.of_nat (length frame_one_channel) = 14 + 8 * 1
  ∧ _ismeasureframevalid 1 frame_one_channel
    = Ok (tags_from frame_tag 0 frame_one_channel).
Proof.
  split; [lia|]. split; [reflexivity|].
  apply (C2_validator_tags 1 frame_one_channel); [lia | reflexivity | lia].
Defined.

(** ** The reception buffer *)

Lemma foldl_append {A} (l bytes : list A) :
  foldl (λ l byte, l ++ [byte]) l bytes = l ++ bytes.
Proof.
  revert l. induction bytes as [|byte bytes IH]; intros l; cbn.
  - now rewrite app_nil_r.
  - now rewrite IH, <- app_assoc.
Qed.

Lemma updatereceptionframe_recframe (self : device) (bytes : list Z) :
  recframe (updatereceptionframe self bytes) = recframe self ++ bytes.
Proof.
  unfold updatereceptionframe. destruct bytes as [|byte bytes]; cbn.
  - now rewrite app_nil_r.
  - now rewrite foldl_append, <- app_assoc.
Qed.

Lemma getrawmeasures_returns (self : device) (c : Z) :
  channels_nb self = PyInt c →
  0 ≤ c →
  ∃ m, _from_measureframe c (recframe self) = Ok m
       ∧ _ismeasureframevalid c (recframe self) = Ok (result m)
       ∧ getrawmeasures self
         = (Ok m,
            if result m
            then Device [] (voltage self) (frequency self) (impuls_nb self)
                   (channels_nb self) (integration_nb self)
            else self).
Proof.
  intros Hattr Hc.
  destruct (from_measureframe_returns c (recframe self) Hc) as (m & Hm & Hv).
  exists m. split; [exact Hm|]. split; [exact Hv|].
  unfold getrawmeasures. rewrite Hattr. cbn. rewrite Hm.
  now destruct (result m).
Qed.

(** C5: a reception buffer whose length is not [14 + 8*c] is rejected
    whatever its bytes are, also where a tag guard would read past its
    end; no field is extracted: the decode returns [False], zeros and
    two empty arrays, and [getrawmeasures] leaves the session as it is. *)
Theorem C5_wrong_length_rejected (self : device) (c : Z) :
  channels_nb self = PyInt c →
  Z.of_nat (length (recframe self)) ≠ 14 + 8 * c →
  _ismeasureframevalid c (recframe self) = Ok false
  ∧ _from_measureframe c (recframe self)
    = Ok (Measures false 0 0 0 0 0 [] [])
  ∧ getrawmeasures self = (Ok (Measures false 0 0 0 0 0 [] []), self).
Proof.
  intros Hattr Hlen.
  pose proof (ismeasureframevalid_length c (recframe self) Hlen) as Hvalid.
  assert (_from_measureframe c (recframe self) = Ok no_measures) as Hfrom.
  { unfold _from_measureframe. now rewrite Hvalid. }
  split; [exact Hvalid|]. split; [exact Hfrom|].
  unfold getrawmeasures. rewrite Hattr. cbn. now rewrite Hfrom.
Qed.

Lemma C5_wrong_length_rejected_witness :
  channels_nb session_short_frame = PyInt 2
  ∧ Z.of_nat (length (recframe session_short_frame)) ≠ 14 + 8 * 2
  ∧ getrawmeasures session_short_frame
    = (Ok (Measures false 0 0 0 0 0 [] []), session_short_frame).
Proof.
  split; [reflexivity|]. split; [cbn; lia|].
  apply (C5_wrong_length_rejected session_short_frame 2); [reflexivity|].
  cbn. lia.
Defined.

(** C9: [updatereceptionframe] appends the bytes read to the buffer and
    changes nothing else of it; [getrawmeasures] returns, and it leaves
    the buffer empty when the decode succeeded, that is when the validator
    accepted the buffer, and leaves the session as it was when the
    validator rejected it. *)
Theorem C9_reception_buffer (self : device) (c : Z) :
  channels_nb self = PyInt c →
  0 ≤ c →
  (∀ bytes, recframe (updatereceptionframe self bytes)
            = recframe self ++ bytes)
  ∧ ∃ m, (getrawmeasures self).1 = Ok m
       ∧ _ismeasureframevalid c (recframe self) = Ok (result m)
       ∧ (result m = true → recframe (getrawmeasures self).2 = [])
       ∧ (result m = false → (getrawmeasures self).2 = self).
Proof.
  intros Hattr Hc. split; [apply updatereceptionframe_recframe|].
  destruct (getrawmeasures_returns self c Hattr Hc) as (m & _ & Hv & ->).
  exists m. cbn. repeat split; [done | |]; now intros ->.
Qed.

Lemma C9_reception_buffer_witness :
  channels_nb session_whole_frame = PyInt 1
  ∧ 0 ≤ 1
  ∧ (∀ bytes, recframe (updatereceptionframe session_whole_frame bytes)
              = recframe session_whole_frame ++ bytes)
  ∧ ∃ m, (getrawmeasures session_whole_frame).1 = Ok m
       ∧ _ismeasureframevalid 1 (recframe session_whole_frame)
         = Ok (result m)
       ∧ (result m = true
          → recframe (getrawmeasures session_whole_frame).2 = [])
       ∧ (result m = false
          → (getrawmeasures session_whole_frame).2 = session_whole_frame).
Proof.
  split; [reflexivity|]. split; [lia|].
  apply (C9_reception_buffer session_whole_frame 1); [reflexivity | lia].
Defined.

(** ** Rounding and the two fixed-point conversions *)

Lemma py_round_le (x : Q) (n : Z) :
  (x < inject_Z n + (1 # 2))%Q → py_round x ≤ n.
Proof.
  intros Hx. unfold py_round.
  pose proof (Qfloor_le x) as Hfloor.
  set (f := Qfloor x) in *. clearbody f.
  assert (f < n + 1) as Hfn.
  { rewrite Zlt_Qlt, inject_Z_plus. change (inject_Z 1) with 1%Q. lra. }
  destruct (Qcompare_spec (x - inject_Z f) (1 # 2)) as [Heq | Hlt | Hgt].
  - assert (f < n); [|destruct (Z.even f); lia].
    rewrite Zlt_Qlt. lra.
  - lia.
  - assert (f < n); [|lia].
    rewrite Zlt_Qlt. lra.
Qed.

Lemma py_round_ge (x : Q) (n : Z) :
  (inject_Z n - (1 # 2) < x)%Q → n ≤ py_round x.
Proof.
  intros Hx. unfold py_round.
  pose proof (Qlt_floor x) as Hfloor.
  set (f := Qfloor x) in *.
  rewrite inject_Z_plus in Hfloor. change (inject_Z 1) with 1%Q in Hfloor.
  clearbody f.
  assert (n < f + 1 + 1) as Hfn.
  { rewrite Zlt_Qlt, !inject_Z_plus. change (inject_Z 1) with 1%Q. lra. }
  destruct (Qcompare_spec (x - inject_Z f) (1 # 2)) as [Heq | Hlt | Hgt].
  - assert (n - 1 < f); [|destruct (Z.even f); lia].
    rewrite Zlt_Qlt. unfold Z.sub. rewrite inject_Z_plus.
    change (inject_Z (- (1))) with (- (1))%Q. lra.
  - assert (n - 1 < f); [|lia].
    rewrite Zlt_Qlt. unfold Z.sub. rewrite inject_Z_plus.
    change (inject_Z (- (1))) with (- (1))%Q. lra.
  - lia.
Qed.

(** Every voltage of the physical range converts to a [Ux] of 8 bits. *)
Lemma Ux_of_range (voltage : Q) :
  (INJVOLT_MIN <= voltage)%Q → (voltage <= INJVOLT_MAX)%Q →
  0 ≤ Ux_of voltage ≤ UX_MAX.
Proof.
  unfold INJVOLT_MIN, INJVOLT_MAX, UX_MAX, Ux_of. intros Hmin Hmax.
  assert (0 < voltage)%Q as Hpos by lra.
  assert (900 / voltage <= 90000 # 1655)%Q as Hupper.
  { apply Qle_shift_div_r; [exact Hpos|]. lra. }
  assert (90000 # 19651 <= 900 / voltage)%Q as Hlower.
  { apply Qle_shift_div_l; [exact Hpos|]. lra. }
  set (u := (900 / voltage)%Q) in *. clearbody u.
  unfold Qdiv. change (/ 50)%Q with (1 # 50)%Q.
  split.
  - apply py_round_ge. change (inject_Z 0) with 0%Q. lra.
  - apply py_round_le. change (inject_Z 255) with 255%Q. lra.
Qed.

(** Every frequency of the physical range converts to an [Fx] of 25
    bits. *)
Lemma Fx_of_range (frequency : Q) :
  (INJFREQ_MIN <= frequency)%Q → (frequency <= INJFREQ_MAX)%Q →
  0 ≤ Fx_of frequency ≤ FX_MAX.
Proof.
  unfold INJFREQ_MIN, INJFREQ_MAX, FX_MAX, Fx_of. intros Hmin Hmax.
  change (inject_Z (2 ^ 28) / 500000)%Q with (268435456 # 500000)%Q.
  split.
  - apply py_round_ge. change (inject_Z 0) with 0%Q. lra.
  - apply py_round_le. change (inject_Z 33554431) with 33554431%Q. lra.
Qed.

(** ** The configuration encoder *)

(** What the two parameter checks let through. *)
Lemma require_integer_Ok (data : pyval) (n : Z) :
  require_integer data = Ok n → data = PyInt n ∧ 0 ≤ n.
Proof.
  unfold require_integer, is_integer.
  destruct data as [m| |]; [|discriminate ..].
  destruct (Z.leb_spec 0 m); [|discriminate].
  intros [= ->]. now split.
Qed.

Lemma require_integer_Raise (data : pyval) (e : exn) :
  require_integer data = Raise e → e = BadConfigParamException.
Proof.
  unfold require_integer, is_integer.
  destruct data as [m| |]; [|now intros [= <-] ..].
  destruct (0 <=? m); [discriminate|now intros [= <-]].
Qed.

Lemma require_float_Ok (data : pyval) (x : Q) :
  require_float data = Ok x → data = PyFloat x.
Proof.
  unfold require_float. destruct data; [discriminate| |discriminate].
  now intros [= ->].
Qed.

Lemma require_float_Raise (data : pyval) (e : exn) :
  require_float data = Raise e → e = BadConfigParamException.
Proof.
  unfold require_float. destruct data; cbn; congruence.
Qed.

(** Case analysis on the guards of [_to_configframe], in hypothesis [H]. *)
Ltac split_guards H :=
  repeat match type of H with
  | context [if ?b then _ else _] =>
      let Hb := fresh "Hguard" in
      destruct b eqn:Hb; [discriminate H|]
  | context [require_integer ?d] =>
      let Hd := fresh "Hcount" in
      destruct (require_integer d) eqn:Hd; [|discriminate H];
      apply require_integer_Ok in Hd as [-> Hd];
      cbn [mbind outcome_bind] in H
  | context [require_float ?d] =>
      let Hd := fresh "Hfloat" in
      destruct (require_float d) eqn:Hd; [|discriminate H];
      apply require_float_Ok in Hd as ->;
      cbn [mbind outcome_bind] in H
  end.

Lemma to_configframe_Ok v f i c t (configframe : list Z) :
  _to_configframe v f i c t = Ok configframe →
  length configframe = CONFIGFRAME_LENGTH
  ∧ ∃ ni nc nt,
      i = PyInt ni ∧ c = PyInt nc ∧ t = PyInt nt
      ∧ ni ≤ IX_MAX ∧ nc ≤ UX_MAX ∧ nt ≤ TX_MAX
      ∧ 0 ≤ ni ∧ 0 ≤ nc ∧ 0 ≤ nt.
Proof.
  unfold _to_configframe. intros H.
  split_guards H.
  injection H as <-. split; [reflexivity|].
  eexists _, _, _. repeat split; try reflexivity; try assumption.
  all: match goal with
       | Hg : negb (?n <=? ?m) = false |- ?n ≤ ?m =>
           apply negb_false_iff, Z.leb_le in Hg; exact Hg
       end.
Qed.

Lemma to_configframe_Raise v f i c t (e : exn) :
  _to_configframe v f i c t = Raise e → e = BadConfigParamException.
Proof.
  unfold _to_configframe. intros H.
  repeat match type of H with
  | context [if ?b then _ else _] =>
      destruct b; [congruence|]
  | context [require_integer ?d] =>
      let Hd := fresh "Hcount" in
      destruct (require_integer d) eqn:Hd;
      [|apply require_integer_Raise in Hd; cbn in H; congruence];
      cbn [mbind outcome_bind] in H
  | context [require_float ?d] =>
      let Hd := fresh "Hfloat" in
      destruct (require_float d) eqn:Hd;
      [|apply require_float_Raise in Hd; cbn in H; congruence];
      cbn [mbind outcome_bind] in H
  end.
  discriminate H.
Qed.

Lemma require_integer_returns (n : Z) :
  0 ≤ n → require_integer (PyInt n) = Ok n.
Proof.
  intros Hn. unfold require_integer, is_integer.
  now rewrite (proj2 (Z.leb_le 0 n) Hn).
Qed.

Lemma to_configframe_returns (x y : Q) (ni nc nt : Z) :
  (INJVOLT_MIN <= x)%Q → (x <= INJVOLT_MAX)%Q →
  (INJFREQ_MIN <= y)%Q → (y <= INJFREQ_MAX)%Q →
  0 ≤ ni ≤ IX_MAX → 0 ≤ nc ≤ UX_MAX → 0 ≤ nt ≤ TX_MAX →
  returns (_to_configframe (PyFloat x) (PyFloat y) (PyInt ni) (PyInt nc)
             (PyInt nt)).
Proof.
  intros Hx1 Hx2 Hy1 Hy2 [Hi0 Hi] [Hc0 Hc] [Ht0 Ht].
  unfold _to_configframe.
  rewrite !require_integer_returns by assumption. cbn.
  rewrite (proj2 (Qle_bool_iff x INJVOLT_MAX)) by done.
  rewrite (proj2 (Qle_bool_iff INJVOLT_MIN x)) by done.
  rewrite (proj2 (Qle_bool_iff y INJFREQ_MAX)) by done.
  rewrite (proj2 (Qle_bool_iff INJFREQ_MIN y)) by done.
  pose proof (Ux_of_range x Hx1 Hx2) as HUx.
  pose proof (Fx_of_range y Hy1 Hy2) as HFx.
  cbn [andb negb].
  destruct (Z.gtb_spec (Ux_of x) UX_MAX); [lia|].
  destruct (Z.gtb_spec (Fx_of y) FX_MAX); [lia|].
  rewrite !(proj2 (Z.leb_le _ _)) by done.
  cbn [negb]. eexists; reflexivity.
Qed.

(** C6, as claimed, fails: no voltage of the physical range converts to a
    [Ux] above 255. *)
Lemma C6_no_voltage_overflows :
  ¬ ∃ voltage : Q,
      (INJVOLT_MIN <= voltage)%Q ∧ (voltage <= INJVOLT_MAX)%Q
      ∧ Ux_of voltage > UX_MAX.
Proof.
  intros (voltage & Hmin & Hmax & Hover).
  pose proof (Ux_of_range voltage Hmin Hmax). lia.
Qed.

(** C6, amended: every voltage of the physical range [16.55, 196.51]
    converts to a [Ux] between 0 and 255, so the conversion check never
    rejects it: whenever the other parameters are valid, a float
    frequency in [0, 62499] and integer counts from 0 to 127, 255 and
    16383, the encoder returns a frame. The least voltage, 16.55, converts
    to 255 exactly. *)
Theorem C6_voltage_conversion_in_range (voltage frequency : Q)
    (impuls_nb channels_nb integration_nb : Z) :
  (INJVOLT_MIN <= voltage)%Q →
  (voltage <= INJVOLT_MAX)%Q →
  (INJFREQ_MIN <= frequency)%Q →
  (frequency <= INJFREQ_MAX)%Q →
  0 ≤ impuls_nb ≤ IX_MAX →
  0 ≤ channels_nb ≤ UX_MAX →
  0 ≤ integration_nb ≤ TX_MAX →
  0 ≤ Ux_of voltage ≤ UX_MAX
  ∧ Ux_of INJVOLT_MIN = UX_MAX
  ∧ returns (_to_configframe (PyFloat voltage) (PyFloat frequency)
               (PyInt impuls_nb) (PyInt channels_nb)
               (PyInt integration_nb)).
Proof.
  intros Hmin Hmax Hfmin Hfmax Hi Hc Ht.
  split; [now apply Ux_of_range|]. split; [reflexivity|].
  now apply to_configframe_returns.
Qed.

Lemma C6_voltage_conversion_in_range_witness :
  (INJVOLT_MIN <= 16.56)%Q
  ∧ (16.56 <= INJVOLT_MAX)%Q
  ∧ (INJFREQ_MIN <= 62499)%Q
  ∧ (62499 <= INJFREQ_MAX)%Q
  ∧ 0 ≤ 0 ≤ IX_MAX
  ∧ 0 ≤ 255 ≤ UX_MAX
  ∧ 0 ≤ 16383 ≤ TX_MAX
  ∧ 0 ≤ Ux_of 16.56 ≤ UX_MAX
  ∧ Ux_of INJVOLT_MIN = UX_MAX
  ∧ returns (_to_configframe (PyFloat 16.56) (PyFloat 62499) (PyInt 0)
               (PyInt 255) (PyInt 16383)).
Proof.
  assert (INJVOLT_MIN <= 16.56)%Q as Hmin by (unfold INJVOLT_MIN; lra).
  assert (16.56 <= INJVOLT_MAX)%Q as Hmax by (unfold INJVOLT_MAX; lra).
  assert (INJFREQ_MIN <= 62499)%Q as Hfmin by (unfold INJFREQ_MIN; lra).
  assert (62499 <= INJFREQ_MAX)%Q as Hfmax by (unfold INJFREQ_MAX; lra).
  assert (0 ≤ 0 ≤ IX_MAX) as Hi by (unfold IX_MAX; lia).
  assert (0 ≤ 255 ≤ UX_MAX) as Hc by (unfold UX_MAX; lia).
  assert (0 ≤ 16383 ≤ TX_MAX) as Ht by (unfold TX_MAX; lia).
  do 7 (split; [assumption|]).
  exact (C6_voltage_conversion_in_range 16.56 62499 0 255 16383
           Hmin Hmax Hfmin Hfmax Hi Hc Ht).
Defined.

(** C7: the encoder raises the configuration-parameter error for every
    impulse count, channel count or integration count that is not a
    non-negative integer or that exceeds 127, 255 or 16383 respectively;
    in particular for every negative integer, and then it produces no
    frame. The upper bounds are tested by the encoder itself; that a
    negative integer is refused rests on [is_integer], as the spec words
    it. *)
Theorem C7_counts_checked (voltage frequency impuls_nb channels_nb
    integration_nb : pyval) :
  bad_count impuls_nb IX_MAX ∨ bad_count channels_nb UX_MAX
  ∨ bad_count integration_nb TX_MAX →
  _to_configframe voltage frequency impuls_nb channels_nb integration_nb
  = Raise BadConfigParamException.
Proof.
  intros Hbad.
  destruct (_to_configframe _ _ _ _ _) as [configframe | e] eqn:Hframe.
  - apply to_configframe_Ok in Hframe
      as (_ & ni & nc & nt & -> & -> & -> & Hi & Hc & Ht & Hi0 & Hc0 & Ht0).
    cbn in Hbad. lia.
  - apply to_configframe_Raise in Hframe. now subst e.
Qed.

Lemma C7_counts_checked_witness :
  (bad_count (PyInt (-1)) IX_MAX ∨ bad_count (PyInt 256) UX_MAX
   ∨ bad_count (PyFloat 1.5) TX_MAX)
  ∧ _to_configframe (PyFloat 100) (PyFloat 10) (PyInt (-1)) (PyInt 256)
      (PyFloat 1.5)
    = Raise BadConfigParamException.
Proof.
  assert (bad_count (PyInt (-1)) IX_MAX ∨ bad_count (PyInt 256) UX_MAX
          ∨ bad_count (PyFloat 1.5) TX_MAX) as Hbad.
  { left. cbn. lia. }
  split; [exact Hbad|].
  exact (C7_counts_checked (PyFloat 100) (PyFloat 10) (PyInt (-1))
           (PyInt 256) (PyFloat 1.5) Hbad).
Defined.

(** ** The resistivity *)

(** C8, as claimed, fails: with both currents zero the computation raises
    [ZeroDivisionError]. *)
Lemma C8_zero_currents_example :
  toresistivityvalue 0 0 50 20 = Raise ZeroDivisionError.
Proof. reflexivity. Qed.

Lemma toresistivityvalue_returns (ip iq vp vq : Q) :
  ¬ (ip == 0 ∧ iq == 0)%Q → returns (toresistivityvalue ip iq vp vq).
Proof.
  intros Hnz. unfold toresistivityvalue, py_div.
  destruct (Qeq_bool (pow2 ip + pow2 iq) 0) eqn:Hden.
  - exfalso. apply Hnz. apply Qeq_bool_iff in Hden. unfold pow2 in Hden.
    destruct ip as [a b], iq as [c d]. unfold Qeq in *. cbn in *. nia.
  - cbn. eexists; reflexivity.
Qed.

(** C8, amended: with phase and quadrature current both zero the
    resistivity computation raises the division-by-zero error; it has no
    guard, and returns no flagged or non-finite value. *)
Theorem C8_zero_currents_raise (ip iq vp vq : Q) :
  (ip == 0)%Q → (iq == 0)%Q →
  toresistivityvalue ip iq vp vq = Raise ZeroDivisionError.
Proof.
  intros Hip Hiq. unfold toresistivityvalue, py_div.
  assert (Qeq_bool (pow2 ip + pow2 iq) 0 = true) as ->; [|reflexivity].
  apply Qeq_bool_iff. unfold pow2. rewrite Hip, Hiq. reflexivity.
Qed.

Lemma C8_zero_currents_raise_witness :
  (0 == 0)%Q ∧ (0 == 0)%Q
  ∧ toresistivityvalue 0 0 50 20 = Raise ZeroDivisionError.
Proof.
  split; [reflexivity|]. split; [reflexivity|].
  apply (C8_zero_currents_raise 0 0 50 20); reflexivity.
Defined.

(** ** The acknowledgement *)

Lemma echo_loop_take (ackframe configframe : list Z) (k s : nat) :
  (s + k ≤ length ackframe)%nat →
  (s + k ≤ length configframe)%nat →
  echo_loop ackframe configframe (seq s k)
  = Ok (bool_decide (take k (drop s ackframe) = take k (drop s configframe))).
Proof.
  revert s. induction k as [|k IH]; intros s Hack Hcfg; cbn [seq echo_loop].
  - reflexivity.
  - destruct (lookup_lt_is_Some_2 ackframe s) as [a Ha]; [lia|].
    destruct (lookup_lt_is_Some_2 configframe s) as [c Hc]; [lia|].
    unfold getitem. rewrite Ha, Hc. cbn.
    rewrite (drop_S _ _ _ Ha), (drop_S _ _ _ Hc). cbn [take].
    destruct (Z.eqb_spec a c) as [-> | Hne]; cbn [negb].
    + rewrite IH by lia. f_equal. apply bool_decide_ext.
      split; [now intros -> | now intros [= ->]].
    + now rewrite bool_decide_eq_false_2 by congruence.
Qed.

Lemma echoes_snoc (ackframe configframe : list Z) :
  echoes ackframe configframe ↔ ∃ last, ackframe = configframe ++ [last].
Proof.
  unfold echoes. split.
  - intros [Hlen Htake].
    rewrite <- (take_drop (length configframe) ackframe), Htake.
    destruct (drop (length configframe) ackframe) as [|last [|? ?]] eqn:Hdrop;
      apply (f_equal length) in Hdrop; rewrite length_drop in Hdrop;
      cbn in Hdrop; [lia | now exists last | lia].
  - intros [last ->]. rewrite length_app. cbn.
    split; [reflexivity | apply take_app_length].
Qed.

Lemma verifconfigack_echoed (configframe : list Z) (last : Z) :
  _verifconfigack (configframe ++ [last]) configframe
  = Ok (true, Z.land last 0x01, Z.shiftr (Z.land last 0x7E) 1).
Proof.
  unfold _verifconfigack. rewrite length_app. cbn [length].
  rewrite Nat.eqb_refl. cbn [negb].
  rewrite (echo_loop_take _ _ (length configframe) 0)
    by (rewrite ?length_app; cbn; lia).
  rewrite !drop_0, take_app_length, firstn_all.
  rewrite bool_decide_eq_true_2 by done. cbn.
  unfold getlast. now rewrite last_snoc.
Qed.

Lemma verifconfigack_not_echoed (ackframe configframe : list Z) :
  ¬ echoes ackframe configframe →
  _verifconfigack ackframe configframe = Ok (false, 0, 0).
Proof.
  intros Hne. unfold _verifconfigack.
  destruct (Nat.eqb_spec (length ackframe) (length configframe + 1))
    as [Hlen | Hlen]; cbn [negb]; [|reflexivity].
  rewrite (echo_loop_take _ _ (length configframe) 0) by lia.
  rewrite !drop_0, (firstn_all configframe).
  rewrite bool_decide_eq_false_2; [reflexivity|].
  intros Htake. apply Hne. now split.
Qed.

Lemma verifconfigack_true (ackframe configframe : list Z) (run boardid : Z) :
  _verifconfigack ackframe configframe = Ok (true, run, boardid) →
  echoes ackframe configframe.
Proof.
  intros Hack. destruct (decide (echoes ackframe configframe)) as [|Hne];
    [done|].
  rewrite verifconfigack_not_echoed in Hack by done. discriminate.
Qed.

Lemma run_bit (last : Z) : Z.land last 0x01 = last mod 2.
Proof. change 0x01 with (Z.ones 1). now rewrite Z.land_ones by lia. Qed.

Lemma boardid_bits (last : Z) :
  Z.shiftr (Z.land last 0x7E) 1 = (last / 2) mod 64.
Proof.
  rewrite Z.shiftr_land. change (Z.shiftr 0x7E 1) with (Z.ones 6).
  rewrite Z.land_ones, Z.shiftr_div_pow2 by lia. reflexivity.
Qed.

(** Parameters that the encoder accepts are numbers: the log line of
    [setconfig] formats them. *)
Lemma setconfig_formats v f i c t (configframe : list Z) :
  _to_configframe v f i c t = Ok configframe →
  (format_number v ;; format_number f ;; format_number i ;;
   format_number c ;; format_number t ;; _to_configframe v f i c t)
  = _to_configframe v f i c t.
Proof.
  intros Hframe. pose proof Hframe as Hok.
  apply to_configframe_Ok in Hok as (_ & ni & nc & nt & -> & -> & -> & _).
  unfold _to_configframe in Hframe.
  destruct v as [|x|]; [discriminate Hframe | | discriminate Hframe].
  destruct f as [|y|]; [|reflexivity|]; cbn in Hframe;
    repeat match type of Hframe with
    | context [if ?b then _ else _] => destruct b; [discriminate Hframe|]
    end; discriminate Hframe.
Qed.

Lemma setconfig_echoed (self : device) v f i c t (link : link_answers)
    (configframe : list Z) :
  _to_configframe v f i c t = Ok configframe →
  drained link = true →
  echoes (received link) configframe →
  setconfig self v f i c t link = (Ok true, Device (recframe self) v f i c t).
Proof.
  intros Hframe Hflush [last Hack]%echoes_snoc.
  unfold setconfig, flush.
  rewrite (setconfig_formats _ _ _ _ _ _ Hframe).
  now rewrite Hframe, Hflush, Hack, verifconfigack_echoed.
Qed.

Lemma setconfig_not_echoed (self : device) v f i c t (link : link_answers)
    (configframe : list Z) :
  _to_configframe v f i c t = Ok configframe →
  drained link = true →
  ¬ echoes (received link) configframe →
  setconfig self v f i c t link = (Raise BadAckException, self).
Proof.
  intros Hframe Hflush Hne.
  unfold setconfig, flush.
  rewrite (setconfig_formats _ _ _ _ _ _ Hframe).
  now rewrite Hframe, Hflush, verifconfigack_not_echoed.
Qed.

(** C4: for the configuration frame the encoder produced and the bytes
    the link returned, the verification succeeds exactly when these are
    11 bytes of which the first 10 are the configuration frame; then it
    returns bit 0 of the 11th byte as [run] and its bits 1 to 6 as
    [boardid] (1 and 2 for 0x05) and [setconfig] stores the five
    parameters; otherwise [setconfig] raises [BadAckException] and leaves
    the session as it was. *)
Theorem C4_acknowledgement (self : device)
    (voltage frequency impuls_nb channels_nb integration_nb : pyval)
    (link : link_answers) (configframe : list Z) :
  _to_configframe voltage frequency impuls_nb channels_nb integration_nb
  = Ok configframe →
  drained link = true →
  let ackframe := received link in
  let echoed := length ackframe = 11%nat ∧ take 10 ackframe = configframe in
  ((∃ run boardid,
      _verifconfigack ackframe configframe = Ok (true, run, boardid))
   ↔ echoed)
  ∧ (echoed →
     ∃ last, ackframe !! 10%nat = Some last
       ∧ _verifconfigack ackframe configframe
         = Ok (true, last mod 2, (last / 2) mod 64)
       ∧ setconfig self voltage frequency impuls_nb channels_nb
           integration_nb link
         = (Ok true,
            Device (recframe self) voltage frequency impuls_nb channels_nb
              integration_nb))
  ∧ (¬ echoed →
     _verifconfigack ackframe configframe = Ok (false, 0, 0)
     ∧ setconfig self voltage frequency impuls_nb channels_nb
         integration_nb link
       = (Raise BadAckException, self))
  ∧ _verifconfigack (configframe ++ [0x05]) configframe = Ok (true, 1, 2).
Proof.
  intros Hframe Hflush ackframe echoed. subst ackframe.
  pose proof (to_configframe_Ok _ _ _ _ _ _ Hframe) as [Hlen _].
  unfold CONFIGFRAME_LENGTH in Hlen.
  assert (echoed ↔ echoes (received link) configframe) as Hechoed.
  { unfold echoed, echoes. now rewrite Hlen. }
  clearbody echoed.
  split; [|split; [|split]].
  - rewrite Hechoed. split.
    + intros (run & boardid & Hack). now apply verifconfigack_true in Hack.
    + intros [last ->]%echoes_snoc. rewrite verifconfigack_echoed. eauto.
  - intros Hyes. pose proof Hyes as Hsnoc.
    apply Hechoed, echoes_snoc in Hsnoc as [last Hsnoc].
    exists last. split; [|split].
    + rewrite Hsnoc, <- Hlen. apply list_lookup_middle. reflexivity.
    + now rewrite Hsnoc, verifconfigack_echoed, run_bit, boardid_bits.
    + apply (setconfig_echoed _ _ _ _ _ _ _ configframe); [done | done |].
      now apply Hechoed.
  - intros Hno. rewrite Hechoed in Hno. split.
    + now apply verifconfigack_not_echoed.
    + now apply (setconfig_not_echoed _ _ _ _ _ _ _ configframe).
  - now rewrite verifconfigack_echoed.
Qed.

Lemma C4_acknowledgement_witness :
  _to_configframe (PyFloat 100) (PyFloat 10) (PyInt 1) (PyInt 1) (PyInt 1)
  = Ok [0xAF; 0x00; 0x79; 0x29; 0x00; 0x00; 0x01; 0x01; 0x01; 0x00]
  ∧ drained link_echo = true
  ∧ setconfig init_device (PyFloat 100) (PyFloat 10) (PyInt 1) (PyInt 1)
      (PyInt 1) link_echo
    = (Ok true,
       Device [] (PyFloat 100) (PyFloat 10) (PyInt 1) (PyInt 1) (PyInt 1)).
Proof.
  assert (_to_configframe (PyFloat 100) (PyFloat 10) (PyInt 1) (PyInt 1)
            (PyInt 1)
          = Ok [0xAF; 0x00; 0x79; 0x29; 0x00; 0x00; 0x01; 0x01; 0x01; 0x00])
    as Hframe by (vm_compute; reflexivity).
  split; [exact Hframe|]. split; [reflexivity|].
  destruct (C4_acknowledgement init_device _ _ _ _ _ link_echo _ Hframe
              eq_refl) as (_ & Hyes & _).
  destruct Hyes as (last & _ & _ & Hset); [split; reflexivity|].
  exact Hset.
Defined.

(** ** The shared list of field names *)

Lemma append_lookup (l : nat) (x : string) (h : heap) (xs : list string) :
  h !! l = Some xs → append l x h !! l = Some (xs ++ [x]).
Proof. intros Hl. unfold append. now rewrite lookup_alter_eq, Hl. Qed.

Lemma append_lookup_ne (l l' : nat) (x : string) (h : heap) :
  l ≠ l' → append l x h !! l' = h !! l'.
Proof. intros Hne. unfold append. now rewrite lookup_alter_ne. Qed.

Lemma foldl_append_lookup (l : nat) (g : nat → string) (ns : list nat)
    (h : heap) (xs : list string) :
  h !! l = Some xs →
  foldl (λ h n, append l (g n) h) h ns !! l = Some (xs ++ map g ns).
Proof.
  revert h xs. induction ns as [|n ns IH]; intros h xs Hl; cbn.
  - now rewrite app_nil_r.
  - rewrite (IH _ (xs ++ [g n])) by now apply append_lookup.
    now rewrite <- app_assoc.
Qed.

Lemma foldl_append_lookup_ne (l l' : nat) (g : nat → string) (ns : list nat)
    (h : heap) :
  l ≠ l' → foldl (λ h n, append l (g n) h) h ns !! l' = h !! l'.
Proof.
  intros Hne. revert h. induction ns as [|n ns IH]; intros h; cbn.
  - reflexivity.
  - now rewrite IH, append_lookup_ne.
Qed.

(** A loop whose body appends [k] names to the list [l] appends [k] names
    per turn, and leaves every other list alone when its body does. *)
Lemma foldl_grows (body : heap → nat → heap) (l k : nat) :
  (∀ h i xs, h !! l = Some xs →
             ∃ xs', body h i !! l = Some xs' ∧ length xs' = (length xs + k)%nat) →
  ∀ range h xs, h !! l = Some xs →
    ∃ xs', foldl body h range !! l = Some xs'
           ∧ length xs' = (length xs + k * length range)%nat.
Proof.
  intros Hbody range. induction range as [|i range IH]; intros h xs Hl; cbn.
  - exists xs. split; [done | lia].
  - destruct (Hbody h i xs Hl) as (xs1 & Hl1 & Hlen1).
    destruct (IH _ _ Hl1) as (xs2 & Hl2 & Hlen2).
    exists xs2. split; [done | lia].
Qed.

Lemma foldl_keeps (body : heap → nat → heap) (l' : nat) :
  (∀ h i, body h i !! l' = h !! l') →
  ∀ range h, foldl body h range !! l' = h !! l'.
Proof.
  intros Hbody range. induction range as [|i range IH]; intros h; cbn.
  - reflexivity.
  - now rewrite IH, Hbody.
Qed.

Lemma append_names_grows (l : nat) (names : list string) (i : nat) (h : heap)
    (xs : list string) :
  h !! l = Some xs →
  ∃ xs', append_names l names i h !! l = Some xs'
         ∧ length xs' = (length xs + length names)%nat.
Proof.
  intros Hl. unfold append_names. eexists. split.
  - exact (foldl_append_lookup l (λ n, format_d (names !!! n) (pretty i))
             _ _ _ Hl).
  - now rewrite length_app, length_map, length_seq.
Qed.

Lemma append_names_keeps (l l' : nat) (names : list string) (i : nat)
    (h : heap) :
  l ≠ l' → append_names l names i h !! l' = h !! l'.
Proof.
  intros Hne. unfold append_names.
  exact (foldl_append_lookup_ne l l' (λ n, format_d (names !!! n) (pretty i))
           _ _ Hne).
Qed.

Lemma getallfieldnames_grows (c : Z) (h : heap) (xs : list string) :
  h !! COMMONFIELDS_LIST = Some xs →
  (getallfieldnames c h).1 = COMMONFIELDS_LIST
  ∧ list_len (getallfieldnames c h).2 COMMONFIELDS_LIST
    = Some (Z.of_nat (length xs) + 4 * Z.of_nat (Z.to_nat c)).
Proof.
  intros Hl. split; [reflexivity|]. unfold getallfieldnames. cbn [snd].
  edestruct (foldl_grows
               (λ h i, append_names COMMONFIELDS_LIST RESISTIVITYFIELDS_LIST i
                         (append_names COMMONFIELDS_LIST POTENTIALFIELDS_LIST
                            i h))
               COMMONFIELDS_LIST 4) as (xs' & Hl' & Hlen);
    [|exact Hl|].
  - intros h0 i xs0 Hl0.
    destruct (append_names_grows COMMONFIELDS_LIST POTENTIALFIELDS_LIST i
                h0 xs0 Hl0) as (xs1 & Hl1 & Hlen1).
    destruct (append_names_grows COMMONFIELDS_LIST RESISTIVITYFIELDS_LIST i
                _ xs1 Hl1) as (xs2 & Hl2 & Hlen2).
    exists xs2. split; [exact Hl2|]. cbn in Hlen1, Hlen2. lia.
  - unfold list_len. rewrite Hl'. cbn. f_equal.
    unfold py_range in Hlen. rewrite length_seq in Hlen. lia.
Qed.

Lemma acquiremeasures_header_loop (c : Z) (csvline : nat) (h : heap)
    (xs : list string) :
  h !! csvline = Some xs →
  let h' :=
    foldl (λ h n,
             let h := append_names csvline POTENTIALFIELDS_LIST n h in
             foldl (λ h i,
                      append csvline
                        (format_d (RESISTIVITYFIELDS_LIST !!! i) (pretty n)) h)
                   h (seq 0 (length POTENTIALFIELDS_LIST)))
          h (py_range c) in
  list_len h' csvline
  = Some (Z.of_nat (length xs) + 4 * Z.of_nat (Z.to_nat c))
  ∧ ∀ l', csvline ≠ l' → h' !! l' = h !! l'.
Proof.
  intros Hl h'. split.
  - edestruct (foldl_grows
                 (λ h n,
                    let h := append_names csvline POTENTIALFIELDS_LIST n h in
                    foldl (λ h i,
                             append csvline
                               (format_d (RESISTIVITYFIELDS_LIST !!! i)
                                  (pretty n)) h)
                          h (seq 0 (length POTENTIALFIELDS_LIST)))
                 csvline 4) as (xs' & Hl' & Hlen);
      [|exact Hl|].
    + intros h0 n xs0 Hl0.
      destruct (append_names_grows csvline POTENTIALFIELDS_LIST n h0 xs0 Hl0)
        as (xs1 & Hl1 & Hlen1).
      eexists. split.
      * cbn zeta.
        exact (foldl_append_lookup csvline
                 (λ i, format_d (RESISTIVITYFIELDS_LIST !!! i) (pretty n))
                 _ _ _ Hl1).
      * rewrite length_app, length_map, length_seq. cbn in Hlen1 |- *. lia.
    + unfold list_len, h'. rewrite Hl'. cbn. f_equal.
      unfold py_range in Hlen. rewrite length_seq in Hlen. lia.
  - intros l' Hne. unfold h'. apply foldl_keeps. intros h0 n. cbn zeta.
    rewrite (foldl_append_lookup_ne csvline l'
               (λ i, format_d (RESISTIVITYFIELDS_LIST !!! i) (pretty n)))
      by done.
    now apply append_names_keeps.
Qed.

(** C10, as claimed, fails on its last clause: with [datetimedisplay] the
    header row of [acquiremeasures] is a new list, and the shared list
    keeps its five names. *)
Lemma C10_header_with_date_is_fresh :
  let header := acquiremeasures_header 1 true class_heap in
  header.1 ≠ COMMONFIELDS_LIST
  ∧ list_len header.2 header.1 = Some 10
  ∧ header.2 !! COMMONFIELDS_LIST = class_heap !! COMMONFIELDS_LIST
  ∧ list_len header.2 COMMONFIELDS_LIST = Some 5.
Proof. vm_compute. repeat split; congruence. Qed.

(** C10, amended: [getallfieldnames] returns the class-level list
    [COMMONFIELDS_LIST] itself after appending [4*c] names to it: from the
    class as loaded, a first call returns a list of [5 + 4*c] names and
    the next call the same list with [5 + 8*c] names. The header row of
    [acquiremeasures] is that same list, grown by [4*c] names again, when
    [datetimedisplay] is not set; when it is set the header row is a new
    list of [6 + 4*c] names and the shared list stays as it was. *)
Theorem C10_shared_field_names (c : Z) :
  0 ≤ c →
  let first := getallfieldnames c class_heap in
  let second := getallfieldnames c first.2 in
  let header := acquiremeasures_header c false second.2 in
  let dated := acquiremeasures_header c true class_heap in
  (first.1 = COMMONFIELDS_LIST
   ∧ list_len first.2 COMMONFIELDS_LIST = Some (5 + 4 * c))
  ∧ (second.1 = COMMONFIELDS_LIST
     ∧ list_len second.2 COMMONFIELDS_LIST = Some (5 + 8 * c))
  ∧ (header.1 = COMMONFIELDS_LIST
     ∧ list_len header.2 COMMONFIELDS_LIST = Some (5 + 12 * c))
  ∧ (dated.1 ≠ COMMONFIELDS_LIST
     ∧ list_len dated.2 dated.1 = Some (6 + 4 * c)
     ∧ dated.2 !! COMMONFIELDS_LIST = class_heap !! COMMONFIELDS_LIST).
Proof.
  intros Hc first second header dated.
  assert (∃ xs, class_heap !! COMMONFIELDS_LIST = Some xs ∧ length xs = 5%nat)
    as (xs0 & Hl0 & Hlen0) by (eexists; split; reflexivity).
  destruct (getallfieldnames_grows c class_heap xs0 Hl0) as [Hid1 Hgrow1].
  fold first in Hid1, Hgrow1.
  assert (∃ xs, first.2 !! COMMONFIELDS_LIST = Some xs
                ∧ Z.of_nat (length xs) = 5 + 4 * c) as (xs1 & Hl1 & Hlen1).
  { unfold list_len in Hgrow1.
    destruct (first.2 !! COMMONFIELDS_LIST) as [xs1|]; [|discriminate].
    exists xs1. split; [done|]. injection Hgrow1. lia. }
  destruct (getallfieldnames_grows c first.2 xs1 Hl1) as [Hid2 Hgrow2].
  fold second in Hid2, Hgrow2.
  assert (∃ xs, second.2 !! COMMONFIELDS_LIST = Some xs
                ∧ Z.of_nat (length xs) = 5 + 8 * c) as (xs2 & Hl2 & Hlen2).
  { unfold list_len in Hgrow2.
    destruct (second.2 !! COMMONFIELDS_LIST) as [xs2|]; [|discriminate].
    exists xs2. split; [done|]. injection Hgrow2. lia. }
  split; [|split; [|split]].
  - split; [exact Hid1|]. rewrite Hgrow1. f_equal. lia.
  - split; [exact Hid2|]. rewrite Hgrow2. f_equal. lia.
  - split; [reflexivity|]. unfold header, acquiremeasures_header. cbn [snd].
    destruct (acquiremeasures_header_loop c COMMONFIELDS_LIST second.2 xs2 Hl2)
      as [Hgrow _].
    cbn zeta in Hgrow. rewrite Hgrow. f_equal. lia.
  - unfold dated, acquiremeasures_header.
    replace (new_list ([DATEFIELD] ++ default [] (class_heap !! COMMONFIELDS_LIST))
               class_heap)
      with (1%nat, <[1%nat := [DATEFIELD] ++ xs0]> class_heap)
      by (vm_compute in Hl0; injection Hl0 as <-; vm_compute; reflexivity).
    cbn [fst snd].
    destruct (acquiremeasures_header_loop c 1%nat
                (<[1%nat := [DATEFIELD] ++ xs0]> class_heap)
                ([DATEFIELD] ++ xs0)) as [Hgrow Hkeep];
      [apply lookup_insert_eq|].
    cbn zeta in Hgrow, Hkeep.
    split; [discriminate|]. split.
    + rewrite Hgrow. f_equal. rewrite length_app. cbn [length]. lia.
    + rewrite Hkeep by discriminate. now apply lookup_insert_ne.
Qed.

Lemma C10_shared_field_names_witness :
  0 ≤ 2
  ∧ list_len (getallfieldnames 2 class_heap).2 COMMONFIELDS_LIST = Some 13
  ∧ list_len
      (getallfieldnames 2 (getallfieldnames 2 class_heap).2).2
      COMMONFIELDS_LIST
    = Some 21.
Proof.
  split; [lia|].
  destruct (C10_shared_field_names 2 ltac:(lia))
    as ((_ & Hfirst) & (_ & Hsecond) & _).
  split; [exact Hfirst | exact Hsecond].
Defined.

(** * Further properties *)

(** ** The configuration encoder: acceptance, shape and content of the
    frame *)

Lemma valid_params_inv v f i c t :
  valid_params v f i c t = true →
  ∃ x y ni nc nt,
    v = PyFloat x ∧ f = PyFloat y ∧ i = PyInt ni ∧ c = PyInt nc
    ∧ t = PyInt nt
    ∧ (INJVOLT_MIN <= x)%Q ∧ (x <= INJVOLT_MAX)%Q
    ∧ (INJFREQ_MIN <= y)%Q ∧ (y <= INJFREQ_MAX)%Q
    ∧ ni ≤ IX_MAX ∧ nc ≤ UX_MAX ∧ nt ≤ TX_MAX
    ∧ 0 ≤ ni ∧ 0 ≤ nc ∧ 0 ≤ nt.
Proof.
  destruct v as [|x|], f as [|y|], i as [ni| |], c as [nc| |], t as [nt| |];
    try discriminate.
  unfold valid_params.
  rewrite !andb_true_iff, !Qle_bool_iff, !Z.leb_le.
  intros [[[[[[[[[? ?] ?] ?] ?] ?] ?] ?] ?] ?]. eexists _, _, _, _, _.
  repeat split; done.
Qed.

Lemma to_configframe_valid v f i c t (configframe : list Z) :
  _to_configframe v f i c t = Ok configframe →
  valid_params v f i c t = true.
Proof.
  unfold _to_configframe. intros H. split_guards H. unfold valid_params.
  repeat match goal with
  | Hg : negb (_ && _) = false |- _ =>
      apply negb_false_iff, andb_true_iff in Hg as [? ?]
  | Hg : negb (_ <=? _) = false |- _ => apply negb_false_iff in Hg
  | Hg : 0 ≤ _ |- _ => apply Z.leb_le in Hg
  end.
  rewrite !andb_true_iff. repeat split; done.
Qed.

Lemma to_configframe_bytes (x y : Q) (ni nc nt : Z) :
  valid_params (PyFloat x) (PyFloat y) (PyInt ni) (PyInt nc) (PyInt nt)
  = true →
  _to_configframe (PyFloat x) (PyFloat y) (PyInt ni) (PyInt nc) (PyInt nt)
  = Ok (config_frame_bytes (Ux_of x) (Fx_of y) ni nc nt).
Proof.
  intros Hvalid. pose proof Hvalid as Hinv.
  apply valid_params_inv in Hinv
    as (? & ? & ? & ? & ? & [= <-] & [= <-] & [= <-] & [= <-] & [= <-]
        & Hx1 & Hx2 & Hy1 & Hy2 & Hi & Hc & Ht & Hi0 & Hc0 & Ht0).
  destruct (to_configframe_returns x y ni nc nt) as [frame Hframe];
    try done.
  rewrite Hframe. f_equal.
  unfold _to_configframe in Hframe.
  rewrite !require_integer_returns in Hframe by assumption.
  cbn in Hframe.
  repeat match type of Hframe with
  | context [if ?b then _ else _] => destruct b; [discriminate Hframe|]
  end.
  now injection Hframe as <-.
Qed.

(** X1: given a float voltage, a float frequency and three non-negative
    integer counts, the encoder returns a frame exactly when the voltage
    is in [16.55, 196.51], the frequency in [0, 62499] and the counts are
    at most 127, 255 and 16383; otherwise it raises
    [BadConfigParamException]. *)
Theorem X1_encoder_accepts (x y : Q) (ni nc nt : Z) :
  0 ≤ ni → 0 ≤ nc → 0 ≤ nt →
  (returns (_to_configframe (PyFloat x) (PyFloat y) (PyInt ni) (PyInt nc)
              (PyInt nt))
   ↔ in_ranges x y ni nc nt)
  ∧ (_to_configframe (PyFloat x) (PyFloat y) (PyInt ni) (PyInt nc)
       (PyInt nt)
     = Raise BadConfigParamException
     ↔ ¬ in_ranges x y ni nc nt).
Proof.
  intros Hi0 Hc0 Ht0.
  assert (returns (_to_configframe (PyFloat x) (PyFloat y) (PyInt ni)
                     (PyInt nc) (PyInt nt))
          ↔ in_ranges x y ni nc nt) as Hiff.
  { split.
    - intros [frame Hframe]. apply to_configframe_valid in Hframe.
      apply valid_params_inv in Hframe
        as (? & ? & ? & ? & ? & [= <-] & [= <-] & [= <-] & [= <-] & [= <-]
            & Hx1 & Hx2 & Hy1 & Hy2 & Hi & Hc & Ht & _).
      unfold in_ranges. tauto.
    - intros (Hx1 & Hx2 & Hy1 & Hy2 & Hi & Hc & Ht).
      now apply to_configframe_returns. }
  split; [exact Hiff|]. split.
  - intros Hraise Hin. destruct (proj2 Hiff Hin) as [frame Hframe].
    congruence.
  - intros Hout.
    destruct (_to_configframe _ _ _ _ _) as [frame|e] eqn:Hframe.
    + exfalso. apply Hout, Hiff. now exists frame.
    + apply to_configframe_Raise in Hframe. now subst e.
Qed.

Lemma X1_encoder_accepts_witness :
  0 ≤ 1 ∧ 0 ≤ 256 ∧ 0 ≤ 1
  ∧ ¬ in_ranges 100 976.5625 1 256 1
  ∧ _to_configframe (PyFloat 100) (PyFloat 976.5625) (PyInt 1) (PyInt 256)
      (PyInt 1)
    = Raise BadConfigParamException.
Proof.
  assert (¬ in_ranges 100 976.5625 1 256 1) as Hout.
  { intros (_ & _ & _ & _ & _ & Hc & _). unfold UX_MAX in Hc. lia. }
  do 3 (split; [lia|]). split; [exact Hout|].
  exact (proj2 (proj2 (X1_encoder_accepts 100 976.5625 1 256 1
                         ltac:(lia) ltac:(lia) ltac:(lia))) Hout).
Defined.

(** Linear arithmetic with quotients and remainders by constants. *)
Ltac lia_div := Z.div_mod_to_equations; lia.

(** The ten bytes, in arithmetic. *)
Lemma masked_field (x m k n : Z) :
  0 ≤ k → 0 ≤ n → Z.shiftr m k = Z.ones n →
  Z.shiftr (Z.land x m) k = (x / 2 ^ k) mod 2 ^ n.
Proof.
  intros Hk Hn Hm.
  now rewrite Z.shiftr_land, Hm, Z.land_ones, Z.shiftr_div_pow2 by lia.
Qed.

Lemma config_frame_bytes_arith (Ux Fx ni nc nt : Z) :
  config_frame_bytes Ux Fx ni nc nt
  = [ 129 + 2 * (Ux mod 64); (Ux / 64) mod 4;
      Fx mod 128; (Fx / 128) mod 128; (Fx / 16384) mod 128;
      (Fx / 2097152) mod 128;
      ni mod 128; nc mod 128; nt mod 128; (nt / 128) mod 128 ].
Proof.
  unfold config_frame_bytes.
  rewrite (masked_field Ux 0xC0 6 2), (masked_field Fx 0x3F80 7 7),
    (masked_field Fx 0x1FC000 14 7), (masked_field Fx 0x0FE00000 21 7),
    (masked_field nt 0x3F80 7 7) by (try reflexivity; lia).
  change 0x003F with (Z.ones 6). change 0x0000007F with (Z.ones 7).
  rewrite !Z.land_ones, Z.shiftl_mul_pow2 by lia.
  change (2 ^ 1) with 2. change (2 ^ 2) with 4. change (2 ^ 6) with 64.
  change (2 ^ 7) with 128. change (2 ^ 14) with 16384.
  change (2 ^ 21) with 2097152.
  now rewrite (Z.mul_comm _ 2).
Qed.

(** X2: a frame the encoder returns has ten bytes: byte 0 is odd and
    between 0x81 and 0xFF (bits 7 and 0 set), byte 1 is at most 3, the
    eight others are below 0x80, and byte 5 is at most 15. *)
Theorem X2_config_frame_shape (v f i c t : pyval) (configframe : list Z) :
  _to_configframe v f i c t = Ok configframe →
  ∃ b0 b1 b2 b3 b4 b5 b6 b7 b8 b9,
    configframe = [b0; b1; b2; b3; b4; b5; b6; b7; b8; b9]
    ∧ 0x81 ≤ b0 ≤ 0xFF ∧ Z.odd b0 = true
    ∧ 0 ≤ b1 ≤ 3
    ∧ Forall (λ b, 0 ≤ b < 0x80) [b2; b3; b4; b5; b6; b7; b8; b9]
    ∧ b5 ≤ 15.
Proof.
  intros Hframe. pose proof (to_configframe_valid _ _ _ _ _ _ Hframe) as Hv.
  pose proof Hv as Hinv.
  apply valid_params_inv in Hinv
    as (x & y & ni & nc & nt & -> & -> & -> & -> & ->
        & _ & _ & Hy1 & Hy2 & _).
  rewrite to_configframe_bytes, config_frame_bytes_arith in Hframe by done.
  injection Hframe as <-.
  pose proof (Fx_of_range y Hy1 Hy2) as HFx. unfold FX_MAX in HFx.
  eexists _, _, _, _, _, _, _, _, _, _. split; [reflexivity|].
  split; [lia_div|]. split.
  { rewrite Z.odd_add, Z.odd_mul. reflexivity. }
  split; [lia_div|]. split.
  { repeat constructor; lia_div. }
  lia_div.
Qed.

Lemma X2_config_frame_shape_witness :
  _to_configframe (PyFloat 100) (PyFloat 10) (PyInt 1) (PyInt 1) (PyInt 1)
  = Ok [0xAF; 0x00; 0x79; 0x29; 0x00; 0x00; 0x01; 0x01; 0x01; 0x00]
  ∧ ∃ b0 b1 b2 b3 b4 b5 b6 b7 b8 b9,
      [0xAF; 0x00; 0x79; 0x29; 0x00; 0x00; 0x01; 0x01; 0x01; 0x00]
      = [b0; b1; b2; b3; b4; b5; b6; b7; b8; b9]
      ∧ 0x81 ≤ b0 ≤ 0xFF ∧ Z.odd b0 = true
      ∧ 0 ≤ b1 ≤ 3
      ∧ Forall (λ b, 0 ≤ b < 0x80) [b2; b3; b4; b5; b6; b7; b8; b9]
      ∧ b5 ≤ 15.
Proof.
  assert (_to_configframe (PyFloat 100) (PyFloat 10) (PyInt 1) (PyInt 1)
            (PyInt 1)
          = Ok [0xAF; 0x00; 0x79; 0x29; 0x00; 0x00; 0x01; 0x01; 0x01; 0x00])
    as Hframe by (vm_compute; reflexivity).
  split; [exact Hframe|].
  exact (X2_config_frame_shape _ _ _ _ _ _ Hframe).
Defined.

(** X3: the frame carries [Ux] and [Fx] whole, and each count modulo the
    width of its field: [Ux] is [(b0 - 0x81)/2 + 64*b1], [Fx] is
    [b2 + 2^7*b3 + 2^14*b4 + 2^21*b5], byte 6 is the impulse count modulo
    128, byte 7 the channel count modulo 128, and [b8 + 2^7*b9] the
    integration count modulo 16384. *)
Theorem X3_config_frame_content (x y : Q) (ni nc nt : Z)
    (b0 b1 b2 b3 b4 b5 b6 b7 b8 b9 : Z) :
  _to_configframe (PyFloat x) (PyFloat y) (PyInt ni) (PyInt nc) (PyInt nt)
  = Ok [b0; b1; b2; b3; b4; b5; b6; b7; b8; b9] →
  Ux_of x = (b0 - 0x81) / 2 + 64 * b1
  ∧ Fx_of y = b2 + 2 ^ 7 * b3 + 2 ^ 14 * b4 + 2 ^ 21 * b5
  ∧ b6 = ni mod 128
  ∧ b7 = nc mod 128
  ∧ b8 + 2 ^ 7 * b9 = nt mod 16384.
Proof.
  intros Hframe. pose proof (to_configframe_valid _ _ _ _ _ _ Hframe) as Hv.
  pose proof Hv as Hinv.
  apply valid_params_inv in Hinv
    as (? & ? & ? & ? & ? & [= <-] & [= <-] & [= <-] & [= <-] & [= <-]
        & Hx1 & Hx2 & Hy1 & Hy2 & _).
  rewrite to_configframe_bytes, config_frame_bytes_arith in Hframe by done.
  injection Hframe as <- <- <- <- <- <- <- <- <- <-.
  pose proof (Ux_of_range x Hx1 Hx2) as HUx. unfold UX_MAX in HUx.
  pose proof (Fx_of_range y Hy1 Hy2) as HFx. unfold FX_MAX in HFx.
  repeat split; lia_div.
Qed.

Lemma X3_config_frame_content_witness :
  _to_configframe (PyFloat 100) (PyFloat 10) (PyInt 1) (PyInt 130) (PyInt 1)
  = Ok [0xAF; 0x00; 0x79; 0x29; 0x00; 0x00; 0x01; 0x02; 0x01; 0x00]
  ∧ Ux_of 100 = (0xAF - 0x81) / 2 + 64 * 0x00
  ∧ Fx_of 10 = 0x79 + 2 ^ 7 * 0x29 + 2 ^ 14 * 0x00 + 2 ^ 21 * 0x00
  ∧ 0x01 = 1 mod 128
  ∧ 0x02 = 130 mod 128
  ∧ 0x01 + 2 ^ 7 * 0x00 = 1 mod 16384.
Proof.
  assert (_to_configframe (PyFloat 100) (PyFloat 10) (PyInt 1) (PyInt 130)
            (PyInt 1)
          = Ok [0xAF; 0x00; 0x79; 0x29; 0x00; 0x00; 0x01; 0x02; 0x01; 0x00])
    as Hframe by (vm_compute; reflexivity).
  split; [exact Hframe|].
  exact (X3_config_frame_content _ _ _ _ _ _ _ _ _ _ _ _ _ _ _ Hframe).
Defined.

(** X4: counts that differ by a multiple of the width of their field
    give the same frame: a channel count from 128 to 255 passes the check
    against 255 and is sent as the count minus 128. *)
Theorem X4_counts_sent_modulo (v f : pyval) (ni nc nt : Z)
    (configframe : list Z) :
  _to_configframe v f (PyInt ni) (PyInt nc) (PyInt nt) = Ok configframe →
  _to_configframe v f (PyInt (ni mod 128)) (PyInt (nc mod 128))
    (PyInt (nt mod 16384))
  = Ok configframe.
Proof.
  intros Hframe. pose proof (to_configframe_valid _ _ _ _ _ _ Hframe) as Hv.
  pose proof Hv as Hinv.
  apply valid_params_inv in Hinv
    as (x & y & ? & ? & ? & -> & -> & [= <-] & [= <-] & [= <-]
        & Hx1 & Hx2 & Hy1 & Hy2 & _).
  rewrite to_configframe_bytes, config_frame_bytes_arith in Hframe by done.
  injection Hframe as <-.
  rewrite to_configframe_bytes, config_frame_bytes_arith.
  - rewrite !Z.mod_mod by lia.
    replace (nt mod 16384 mod 128) with (nt mod 128) by lia_div.
    replace (nt mod 16384 / 128 mod 128) with (nt / 128 mod 128) by lia_div.
    reflexivity.
  - unfold valid_params in Hv |- *. rewrite !andb_true_iff in Hv |- *.
    rewrite !Z.leb_le. unfold IX_MAX, UX_MAX, TX_MAX.
    repeat split; try tauto; lia_div.
Qed.

Lemma X4_counts_sent_modulo_witness :
  _to_configframe (PyFloat 100) (PyFloat 10) (PyInt 1) (PyInt 130)
    (PyInt 1)
  = Ok [0xAF; 0x00; 0x79; 0x29; 0x00; 0x00; 0x01; 0x02; 0x01; 0x00]
  ∧ _to_configframe (PyFloat 100) (PyFloat 10) (PyInt (1 mod 128))
      (PyInt (130 mod 128)) (PyInt (1 mod 16384))
    = Ok [0xAF; 0x00; 0x79; 0x29; 0x00; 0x00; 0x01; 0x02; 0x01; 0x00].
Proof.
  assert (_to_configframe (PyFloat 100) (PyFloat 10) (PyInt 1) (PyInt 130)
            (PyInt 1)
          = Ok [0xAF; 0x00; 0x79; 0x29; 0x00; 0x00; 0x01; 0x02; 0x01; 0x00])
    as Hframe by (vm_compute; reflexivity).
  split; [exact Hframe|].
  exact (X4_counts_sent_modulo _ _ _ _ _ _ Hframe).
Defined.

(** ** The frequency sent *)




(** ** The acknowledgement: what [_verifconfigack] and [setconfig] always
    do *)

(** X6: [_verifconfigack] raises on no pair of frames, whatever their
    lengths; [run] is 0 or 1 and [boardid] between 0 and 63, both 0 when
    the acknowledgement is refused. *)
Theorem X6_verifconfigack_returns (ackframe configframe : list Z) :
  ∃ ack run boardid,
    _verifconfigack ackframe configframe = Ok (ack, run, boardid)
    ∧ 0 ≤ run ≤ 1 ∧ 0 ≤ boardid ≤ 63
    ∧ (ack = true ↔ echoes ackframe configframe)
    ∧ (ack = false → run = 0 ∧ boardid = 0).
Proof.
  destruct (decide (echoes ackframe configframe)) as [Hyes | Hno].
  - pose proof Hyes as [last ->]%echoes_snoc.
    rewrite verifconfigack_echoed, run_bit, boardid_bits.
    eexists _, _, _. split; [reflexivity|].
    split; [lia_div|]. split; [lia_div|]. split; [done | discriminate].
  - rewrite verifconfigack_not_echoed by done.
    exists false, 0, 0. split; [reflexivity|].
    split; [lia|]. split; [lia|]. split; [|done].
    split; [discriminate | done].
Qed.

Lemma setconfig_refused (self : device) v f i c t (link : link_answers)
    (e : exn) :
  _to_configframe v f i c t = Raise e →
  ∃ e', setconfig self v f i c t link = (Raise e', self).
Proof.
  intros Hframe. unfold setconfig.
  destruct v, f, i, c, t;
    cbn [format_number mbind outcome_bind]; rewrite ?Hframe; eauto.
Qed.

(** X7: [setconfig] returns [True] exactly when the encoder accepts the
    parameters, the reception buffer drains and the link echoes the frame
    with one more byte; then it stores the five parameters. In every other
    case it raises and leaves the session as it was. It never touches the
    reception buffer. *)
Theorem X7_setconfig_all_or_nothing (self : device) (v f i c t : pyval)
    (link : link_answers) :
  let call := setconfig self v f i c t link in
  recframe call.2 = recframe self
  ∧ (call.1 = Ok true
     ↔ ∃ configframe,
         _to_configframe v f i c t = Ok configframe
         ∧ drained link = true
         ∧ echoes (received link) configframe)
  ∧ (call.1 = Ok true → call.2 = Device (recframe self) v f i c t)
  ∧ (call.1 ≠ Ok true → call.2 = self ∧ ∃ e, call.1 = Raise e).
Proof.
  cbn zeta.
  destruct (_to_configframe v f i c t) as [configframe | e] eqn:Hframe.
  - destruct (drained link) eqn:Hflush.
    + destruct (decide (echoes (received link) configframe)) as [Hyes | Hno].
      * rewrite (setconfig_echoed self _ _ _ _ _ link configframe) by done.
        cbn. repeat split; try done. eauto.
      * rewrite (setconfig_not_echoed self _ _ _ _ _ link configframe)
          by done.
        cbn. repeat split; try done; [|eauto].
        intros (configframe' & [= <-] & _ & Hyes). done.
    + unfold setconfig, flush.
      rewrite (setconfig_formats _ _ _ _ _ _ Hframe), Hframe, Hflush.
      cbn. repeat split; try done; [|eauto].
      intros (_ & _ & [=] & _).
  - destruct (setconfig_refused self v f i c t link e Hframe) as [e' ->].
    cbn. repeat split; try done; [|eauto].
    intros (configframe' & [=] & _).
Qed.

Lemma only_index_Ok {A} (a : A) : only_index (Ok a).
Proof. intros e. discriminate. Qed.

Lemma only_index_bind {A B} (m : outcome A) (k : A → outcome B) :
  only_index m → (∀ a, only_index (k a)) → only_index (m ≫= k).
Proof.
  intros Hm Hk e. destruct m as [a|e']; cbn.
  - apply Hk.
  - intros [= <-]. now apply Hm.
Qed.

Lemma only_index_getitem {A} (l : list A) (i : nat) :
  only_index (getitem l i).
Proof. intros e. unfold getitem. destruct (l !! i); congruence. Qed.

Lemma only_index_guard test frame i rest :
  only_index rest → only_index (guard test frame i rest).
Proof.
  intros Hrest. unfold guard.
  apply only_index_bind; [apply only_index_getitem|].
  intros byte. destruct (negb (test byte)); [apply only_index_Ok | done].
Qed.

Lemma only_index_channel_guards frame range :
  only_index (channel_guards frame range).
Proof.
  induction range as [|i range IH]; cbn [channel_guards].
  - apply only_index_Ok.
  - repeat apply only_index_guard. exact IH.
Qed.

Lemma only_index_ismeasureframevalid (c : Z) (frame : list Z) :
  only_index (_ismeasureframevalid c frame).
Proof.
  unfold _ismeasureframevalid.
  destruct (length frame =? 0)%nat; [apply only_index_Ok|].
  destruct (negb _); [apply only_index_Ok|].
  repeat apply only_index_guard. apply only_index_channel_guards.
Qed.

Lemma only_index_word14 frame o : only_index (word14 frame o).
Proof.
  unfold word14.
  repeat (apply only_index_bind; [apply only_index_getitem | intros ?]).
  apply only_index_Ok.
Qed.

Lemma only_index_word28 frame o : only_index (word28 frame o).
Proof.
  unfold word28.
  repeat (apply only_index_bind; [apply only_index_getitem | intros ?]).
  apply only_index_Ok.
Qed.

Lemma only_index_channel_values frame range :
  ∀ p q, only_index (channel_values frame range p q).
Proof.
  induction range as [|i range IH]; intros p q; cbn [channel_values].
  - apply only_index_Ok.
  - apply only_index_bind; [apply only_index_word28 | intros ?].
    apply only_index_bind; [apply only_index_word28 | intros ?].
    apply IH.
Qed.

Lemma only_index_from_measureframe (c : Z) (frame : list Z) :
  only_index (_from_measureframe c frame).
Proof.
  unfold _from_measureframe.
  apply only_index_bind; [apply only_index_ismeasureframevalid|].
  intros valid. destruct (negb valid); [apply only_index_Ok|].
  repeat (apply only_index_bind;
          [first [apply only_index_word14 | apply only_index_word28
                 | apply only_index_channel_values]
          | intros ?]).
  apply only_index_Ok.
Qed.

(** X8: a session that holds an integer channel count of at most 255, as
    it does after [__init__], holds one after [setconfig],
    [updatereceptionframe] and [getrawmeasures] too, so [getrawmeasures]
    never fails on the type of [self.channels_nb]: if it raises at all, it
    raises [IndexError]. *)
Theorem X8_session_invariant (self : device) (v f i c t : pyval)
    (link : link_answers) (bytes : list Z) :
  session_ok self →
  session_ok init_device
  ∧ session_ok (setconfig self v f i c t link).2
  ∧ session_ok (updatereceptionframe self bytes)
  ∧ session_ok (getrawmeasures self).2
  ∧ only_index (getrawmeasures self).1.
Proof.
  intros (c0 & Hc0 & Hle).
  split; [exists 0; split; [reflexivity | unfold UX_MAX; lia]|].
  split.
  { destruct (_to_configframe v f i c t) as [configframe | e] eqn:Hframe.
    - destruct (drained link) eqn:Hflush.
      + destruct (decide (echoes (received link) configframe)) as [Hyes | Hno].
        * rewrite (setconfig_echoed self _ _ _ _ _ link configframe) by done.
          apply to_configframe_Ok in Hframe
            as (_ & ni & nc & nt & _ & -> & _ & _ & Hnc & _).
          now exists nc.
        * rewrite (setconfig_not_echoed self _ _ _ _ _ link configframe)
            by done.
          now exists c0.
      + unfold setconfig, flush.
        rewrite (setconfig_formats _ _ _ _ _ _ Hframe), Hframe, Hflush.
        now exists c0.
    - destruct (setconfig_refused self v f i c t link e Hframe) as [e' ->].
      now exists c0. }
  split.
  { unfold updatereceptionframe. destruct (0 <? length bytes)%nat;
      now exists c0. }
  pose proof (only_index_from_measureframe c0 (recframe self)) as Honly.
  unfold getrawmeasures. rewrite Hc0. cbn.
  destruct (_from_measureframe c0 (recframe self)) as [m | e].
  - destruct (result m); cbn;
      (split; [now exists c0 | apply only_index_Ok]).
  - cbn. split; [now exists c0 | exact Honly].
Qed.

Lemma X8_session_invariant_witness :
  session_ok init_device
  ∧ session_ok
      (setconfig init_device (PyFloat 100) (PyFloat 10) (PyInt 1) (PyInt 1)
         (PyInt 1) link_echo).2
  ∧ only_index (getrawmeasures init_device).1.
Proof.
  assert (session_ok init_device) as Hok.
  { exists 0. split; [reflexivity | unfold UX_MAX; lia]. }
  split; [exact Hok|].
  destruct (X8_session_invariant init_device (PyFloat 100) (PyFloat 10)
              (PyInt 1) (PyInt 1) (PyInt 1) link_echo [] Hok)
    as (_ & Hset & _ & _ & Hraw).
  split; [exact Hset | exact Hraw].
Defined.

(** ** The validator: when it raises, what it looks at *)

(** X9: the validator raises in one case only: the channel count is -1,
    so that the required length is 6, and the six bytes carry the tags of
    bytes 0 to 5; it then reads byte 6 and raises [IndexError]. With any
    other channel count, negative ones included, it returns. *)
Theorem X9_validator_raises (c : Z) (frame : list Z) :
  only_index (_ismeasureframevalid c frame)
  ∧ (_ismeasureframevalid c frame = Raise IndexError
     ↔ c = -1 ∧ length frame = 6%nat
       ∧ tags_from frame_tag 0 frame = true).
Proof.
  split; [apply only_index_ismeasureframevalid|].
  destruct (Z.eq_dec (Z.of_nat (length frame)) (14 + 8 * c)) as [Hlen | Hlen].
  - destruct (Z_le_gt_dec 0 c) as [Hc | Hc].
    + destruct (ismeasureframevalid_returns c frame Hc) as [b ->].
      split; [discriminate | lia].
    + assert (c = -1) as -> by lia.
      do 6 (destruct frame as [|? frame]; [cbn [length] in Hlen; lia|]).
      destruct frame; [|cbn [length] in Hlen; lia].
      clear. unfold _ismeasureframevalid, guard, getitem. cbn.
      rewrite ?isbit7valueat1_testbit, ?isbit7valueat0_testbit.
      repeat match goal with
      | |- context [Z.testbit ?byte 7] =>
          destruct (Z.testbit byte 7); cbn;
          try (split; [discriminate | intros (_ & _ & [=])])
      end.
      done.
  - rewrite ismeasureframevalid_length by done.
    split; [discriminate | lia].
Qed.

Lemma tags_lookup (frame1 frame2 : list Z) (i : nat) :
  tags frame1 = tags frame2 →
  match frame1 !! i, frame2 !! i with
  | Some b1, Some b2 => Z.testbit b1 7 = Z.testbit b2 7
  | None, None => True
  | _, _ => False
  end.
Proof.
  intros Htags. apply (f_equal (λ l, l !! i)) in Htags.
  unfold tags in Htags. rewrite !list_lookup_fmap in Htags.
  destruct (frame1 !! i), (frame2 !! i); cbn in Htags;
    [congruence | discriminate | discriminate | exact I].
Qed.

Lemma guard_tags test1 test2 frame1 frame2 i rest1 rest2 :
  tags frame1 = tags frame2 →
  (∀ b1 b2, Z.testbit b1 7 = Z.testbit b2 7 → test1 b1 = test2 b2) →
  rest1 = rest2 →
  guard test1 frame1 i rest1 = guard test2 frame2 i rest2.
Proof.
  intros Htags Htest ->. unfold guard, getitem.
  pose proof (tags_lookup frame1 frame2 i Htags) as Hi.
  destruct (frame1 !! i) as [b1|], (frame2 !! i) as [b2|]; try done.
  cbn. now rewrite (Htest b1 b2 Hi).
Qed.

Lemma isbit7valueat1_tags b1 b2 :
  Z.testbit b1 7 = Z.testbit b2 7 → _isbit7valueat1 b1 = _isbit7valueat1 b2.
Proof. rewrite !isbit7valueat1_testbit. done. Qed.

Lemma isbit7valueat0_tags b1 b2 :
  Z.testbit b1 7 = Z.testbit b2 7 → _isbit7valueat0 b1 = _isbit7valueat0 b2.
Proof. rewrite !isbit7valueat0_testbit. now intros ->. Qed.

(** X10: the validator looks at bit 7 of the bytes and at nothing else:
    two frames with the same tag bits get the same verdict. *)
Theorem X10_validator_reads_tags_only (c : Z) (frame1 frame2 : list Z) :
  tags frame1 = tags frame2 →
  _ismeasureframevalid c frame1 = _ismeasureframevalid c frame2.
Proof.
  intros Htags.
  assert (length frame1 = length frame2) as Hlen.
  { apply (f_equal length) in Htags. unfold tags in Htags.
    now rewrite !length_map in Htags. }
  assert (∀ range, channel_guards frame1 range = channel_guards frame2 range)
    as Hchannels.
  { induction range as [|i range IH]; cbn [channel_guards]; [done|].
    repeat (apply guard_tags;
            [done
            | first [exact isbit7valueat1_tags | exact isbit7valueat0_tags]
            |]).
    exact IH. }
  unfold _ismeasureframevalid. rewrite Hlen.
  destruct (length frame2 =? 0)%nat; [done|].
  destruct (negb _); [done|].
  repeat (apply guard_tags;
          [done
          | first [exact isbit7valueat1_tags | exact isbit7valueat0_tags]
          |]).
  apply Hchannels.
Qed.

Lemma X10_validator_reads_tags_only_witness :
  tags frame_one_channel
  = tags [0x80; 0x80; 0x80; 0; 0x80; 0; 0x80; 0; 0; 0; 0x80; 0; 0; 0;
          0x80; 0; 0; 0;  0x80; 0; 0; 0]
  ∧ _ismeasureframevalid 1 frame_one_channel
    = _ismeasureframevalid 1
        [0x80; 0x80; 0x80; 0; 0x80; 0; 0x80; 0; 0; 0; 0x80; 0; 0; 0;
         0x80; 0; 0; 0;  0x80; 0; 0; 0].
Proof.
  split; [reflexivity|].
  apply (X10_validator_reads_tags_only 1). reflexivity.
Defined.

(** ** The decoder: the values it can return *)

Lemma land_0x7F (x : Z) : Z.land x 0x7F = x mod 128.
Proof. change 0x7F with (Z.ones 7). now rewrite Z.land_ones by lia. Qed.

Lemma word14_value frame o v :
  word14 frame o = Ok v →
  ∃ b0 b1, frame !! o = Some b0 ∧ frame !! (o + 1)%nat = Some b1
           ∧ v = b0 mod 128 + 128 * (b1 mod 128).
Proof.
  unfold word14, getitem.
  destruct (frame !! o) as [b0|]; [|discriminate].
  destruct (frame !! (o + 1)%nat) as [b1|]; [|discriminate].
  cbn. intros [= <-]. exists b0, b1. split; [done|]. split; [done|].
  rewrite !land_0x7F, Z.shiftl_mul_pow2 by lia. lia.
Qed.

Lemma word28_value frame o v :
  word28 frame o = Ok v →
  ∃ b0 b1 b2 b3,
    frame !! o = Some b0 ∧ frame !! (o + 1)%nat = Some b1
    ∧ frame !! (o + 2)%nat = Some b2 ∧ frame !! (o + 3)%nat = Some b3
    ∧ v = b0 mod 128 + 128 * (b1 mod 128) + 16384 * (b2 mod 128)
          + 2097152 * (b3 mod 128).
Proof.
  unfold word28, getitem.
  destruct (frame !! o) as [b0|]; [|discriminate].
  destruct (frame !! (o + 1)%nat) as [b1|]; [|discriminate].
  destruct (frame !! (o + 2)%nat) as [b2|]; [|discriminate].
  destruct (frame !! (o + 3)%nat) as [b3|]; [|discriminate].
  cbn. intros [= <-]. exists b0, b1, b2, b3. repeat (split; [done|]).
  rewrite !land_0x7F, !Z.shiftl_mul_pow2 by lia. lia.
Qed.

Lemma word14_fits frame o v : word14 frame o = Ok v → fits14 v.
Proof.
  intros (b0 & b1 & _ & _ & ->)%word14_value. unfold fits14. lia_div.
Qed.

Lemma decoded_at_decoded28 frame o v : decoded_at frame o v → decoded28 v.
Proof.
  intros (raw & (b0 & b1 & b2 & b3 & _ & _ & _ & _ & ->)%word28_value & ->).
  unfold decoded28, signed28.
  destruct (Z.gtb_spec (b0 mod 128 + 128 * (b1 mod 128)
                        + 16384 * (b2 mod 128) + 2097152 * (b3 mod 128))
              (2 ^ 27)); lia_div.
Qed.

Lemma from_measureframe_fields (c : Z) (frame : list Z) (m : measures) :
  _from_measureframe c frame = Ok m →
  result m = true →
  word14 frame 0 = Ok (count m)
  ∧ word14 frame 2 = Ok (recbatvoltage m)
  ∧ word14 frame 4 = Ok (embatvoltage m)
  ∧ decoded_at frame 6 (phasecurrent m)
  ∧ decoded_at frame 10 (quadcurrent m).
Proof.
  unfold _from_measureframe.
  destruct (_ismeasureframevalid c frame) as [[|]|]; cbn;
    [|intros [= <-]; discriminate | discriminate].
  destruct (word14 frame 0) as [v0|]; cbn; [|discriminate].
  destruct (word14 frame 2) as [v2|]; cbn; [|discriminate].
  destruct (word14 frame 4) as [v4|]; cbn; [|discriminate].
  destruct (word28 frame 6) as [v6|] eqn:H6; cbn; [|discriminate].
  destruct (word28 frame 10) as [v10|] eqn:H10; cbn; [|discriminate].
  destruct (channel_values _ _ _ _); cbn; [|discriminate].
  intros [= <-] _. cbn. do 3 (split; [reflexivity|]).
  split; [exists v6 | exists v10]; now split.
Qed.

(** X11: whatever the frame, the decoder returns a count and two battery
    codes between 0 and 16383, and currents and potentials above -2^27 and
    at most 2^27; on success it returns one phase and one quadrature
    potential per channel. *)
Theorem X11_decoded_ranges (c : Z) (frame : list Z) (m : measures) :
  _from_measureframe c frame = Ok m →
  fits14 (count m) ∧ fits14 (recbatvoltage m) ∧ fits14 (embatvoltage m)
  ∧ decoded28 (phasecurrent m) ∧ decoded28 (quadcurrent m)
  ∧ Forall decoded28 (phasevoltagearray m)
  ∧ Forall decoded28 (quadvoltagearray m)
  ∧ (if result m
     then length (phasevoltagearray m) = Z.to_nat c
          ∧ length (quadvoltagearray m) = Z.to_nat c
     else phasevoltagearray m = [] ∧ quadvoltagearray m = []).
Proof.
  intros Hfrom. destruct (result m) eqn:Hresult.
  - destruct (from_measureframe_fields c frame m Hfrom Hresult)
      as (H0 & H2 & H4 & H6 & H10).
    destruct (from_measureframe_offsets c frame m Hfrom Hresult)
      as [Hps Hqs].
    do 3 (split; [eauto using word14_fits|]).
    do 2 (split; [eauto using decoded_at_decoded28|]).
    split.
    { eapply Forall2_Forall_r; [exact Hps|].
      apply Forall_forall. intros i _ p. apply decoded_at_decoded28. }
    split.
    { eapply Forall2_Forall_r; [exact Hqs|].
      apply Forall_forall. intros i _ q. apply decoded_at_decoded28. }
    apply Forall2_length in Hps, Hqs. unfold py_range in Hps, Hqs.
    rewrite length_seq in Hps, Hqs. now split.
  - assert (m = no_measures) as ->.
    { revert Hfrom. unfold _from_measureframe.
      destruct (_ismeasureframevalid c frame) as [[|]|]; cbn;
        [|congruence|discriminate].
      repeat match goal with
      | |- context [word14 ?f ?o] =>
          destruct (word14 f o); cbn; [|discriminate]
      | |- context [word28 ?f ?o] =>
          destruct (word28 f o); cbn; [|discriminate]
      end.
      destruct (channel_values _ _ _ _); cbn; [|discriminate].
      intros [= <-]. discriminate. }
    unfold fits14, decoded28. cbn.
    do 5 (split; [lia|]). do 2 (split; [constructor|]). now split.
Qed.

Lemma X11_decoded_ranges_witness :
  _from_measureframe 0 frame_min_current
  = Ok (Measures true 0 0 0 (2 ^ 27) 0 [] [])
  ∧ decoded28 (2 ^ 27).
Proof.
  assert (_from_measureframe 0 frame_min_current
          = Ok (Measures true 0 0 0 (2 ^ 27) 0 [] [])) as Hfrom
    by (vm_compute; reflexivity).
  split; [exact Hfrom|].
  exact (proj1 (proj2 (proj2 (proj2
           (X11_decoded_ranges 0 frame_min_current _ Hfrom))))).
Defined.

(** ** The decoder on the layout of its docstring *)

#[local] Arguments tagged : simpl never.
#[local] Arguments untagged : simpl never.

Lemma testbit_tagged (x : Z) : Z.testbit (tagged x) 7 = true.
Proof.
  apply Z.testbit_true; [lia|]. unfold tagged. rewrite land_0x7F.
  change (2 ^ 7) with 128. lia_div.
Qed.

Lemma testbit_untagged (x : Z) : Z.testbit (untagged x) 7 = false.
Proof.
  apply Z.testbit_false; [lia|]. unfold untagged. rewrite land_0x7F.
  change (2 ^ 7) with 128. lia_div.
Qed.

Lemma recombine_count (v : Z) :
  fits14 v →
  Z.land (tagged v) 0x7F + Z.shiftl (Z.land (tagged (Z.shiftr v 7)) 0x7F) 7
  = v.
Proof.
  unfold fits14, tagged. change (2 ^ 14) with 16384. intros Hv.
  rewrite !land_0x7F, Z.shiftl_mul_pow2, Z.shiftr_div_pow2 by lia.
  change (2 ^ 7) with 128. lia_div.
Qed.

Lemma recombine14 (v : Z) :
  fits14 v →
  Z.land (tagged v) 0x7F + Z.shiftl (Z.land (untagged (Z.shiftr v 7)) 0x7F) 7
  = v.
Proof.
  unfold fits14, tagged, untagged. change (2 ^ 14) with 16384. intros Hv.
  rewrite !land_0x7F, Z.shiftl_mul_pow2, Z.shiftr_div_pow2 by lia.
  change (2 ^ 7) with 128. lia_div.
Qed.

Lemma recombine28 (v : Z) :
  fits28 v →
  signed28
    (Z.land (tagged v) 0x7F
     + Z.shiftl (Z.land (untagged (Z.shiftr v 7)) 0x7F) 7
     + Z.shiftl (Z.land (untagged (Z.shiftr v 14)) 0x7F) 14
     + Z.shiftl (Z.land (untagged (Z.shiftr v 21)) 0x7F) 21)
  = v.
Proof.
  unfold fits28, tagged, untagged, signed28.
  change (2 ^ 27) with 134217728. change (2 ^ 28) with 268435456.
  intros Hv.
  rewrite !land_0x7F, !Z.shiftl_mul_pow2, !Z.shiftr_div_pow2 by lia.
  change (2 ^ 7) with 128. change (2 ^ 14) with 16384.
  change (2 ^ 21) with 2097152.
  match goal with |- (if ?x >? ?y then _ else _) = _ =>
    destruct (Z.gtb_spec x y)
  end; lia_div.
Qed.

(** Rewriting the decode of a frame laid out as the docstring says. *)
Ltac decode_layout :=
  unfold _from_measureframe;
  rewrite ismeasureframevalid_tags by first [lia | reflexivity];
  cbn [layout_frame layout_count layout14 layout28 count recbatvoltage
       embatvoltage phasecurrent quadcurrent phasevoltagearray
       quadvoltagearray zip_with concat app tags_from];
  rewrite !testbit_tagged, !testbit_untagged;
  change (tags_from frame_tag 14 []) with true;
  change (tags_from frame_tag 22 []) with true;
  change (py_range 0) with (@nil nat);
  change (py_range 1) with [0%nat];
  unfold channel_values, word14, word28, getitem; cbn;
  rewrite ?recombine_count, ?recombine14, ?recombine28 by done;
  reflexivity.

(** X12: for no channel or one channel, the decoder is the inverse of the
    layout that its docstring describes: a frame laid out from a count
    and two battery codes of 14 bits and from currents and potentials
    strictly between -2^27 and 2^27 is accepted and decodes to these
    values. *)
Theorem X12_decode_layout (m : measures) :
  result m = true →
  fits14 (count m) → fits14 (recbatvoltage m) → fits14 (embatvoltage m) →
  fits28 (phasecurrent m) → fits28 (quadcurrent m) →
  Forall fits28 (phasevoltagearray m) →
  Forall fits28 (quadvoltagearray m) →
  length (phasevoltagearray m) = length (quadvoltagearray m) →
  (length (phasevoltagearray m) ≤ 1)%nat →
  _from_measureframe (Z.of_nat (length (phasevoltagearray m)))
    (layout_frame m)
  = Ok m.
Proof.
  destruct m as [r cnt rb eb pc qc ps qs].
  cbn [result count recbatvoltage embatvoltage phasecurrent quadcurrent
       phasevoltagearray quadvoltagearray].
  intros -> Hcnt Hrb Heb Hpc Hqc Hps Hqs Hlen Hone.
  destruct ps as [|p [|? ?]], qs as [|q [|? ?]]; cbn in Hlen, Hone;
    try lia; clear Hlen Hone.
  - change (Z.of_nat (length [])) with 0. decode_layout.
  - apply Forall_cons in Hps as [Hp _]. apply Forall_cons in Hqs as [Hq _].
    change (Z.of_nat (length [p])) with 1. decode_layout.
Qed.

Lemma X12_decode_layout_witness :
  _from_measureframe 1
    (layout_frame (Measures true 133 2048 16383 (-5) 134217727 [-134217727]
                     [2]))
  = Ok (Measures true 133 2048 16383 (-5) 134217727 [-134217727] [2]).
Proof.
  apply (X12_decode_layout
           (Measures true 133 2048 16383 (-5) 134217727 [-134217727] [2]));
    unfold fits14, fits28; cbn; try lia; try reflexivity;
    repeat constructor; lia.
Defined.

(** ** The bytes that the validator and the decoder never read *)

Lemma same_below_lookup n frame1 frame2 i :
  same_below n frame1 frame2 → (i < n)%nat → frame1 !! i = frame2 !! i.
Proof.
  intros [_ Htake] Hi.
  now rewrite <- (lookup_take_lt frame1 n i), <- (lookup_take_lt frame2 n i),
    Htake by done.
Qed.

Lemma channel_guards_same n frame1 frame2 range :
  same_below n frame1 frame2 →
  Forall (λ i, (14 + i * 4 + 7 < n)%nat) range →
  channel_guards frame1 range = channel_guards frame2 range.
Proof.
  intros Hsame. induction 1 as [|i range Hi _ IH]; cbn [channel_guards];
    [done|].
  unfold guard, getitem, MEASUREFRAME_MINLENGTH.
  rewrite !(same_below_lookup n frame1 frame2) by (done || lia).
  now rewrite IH.
Qed.

Lemma word14_same n frame1 frame2 o :
  same_below n frame1 frame2 → (o + 1 < n)%nat →
  word14 frame1 o = word14 frame2 o.
Proof.
  intros Hsame Ho. unfold word14, getitem.
  now rewrite !(same_below_lookup n frame1 frame2) by (done || lia).
Qed.

Lemma word28_same n frame1 frame2 o :
  same_below n frame1 frame2 → (o + 3 < n)%nat →
  word28 frame1 o = word28 frame2 o.
Proof.
  intros Hsame Ho. unfold word28, getitem.
  now rewrite !(same_below_lookup n frame1 frame2) by (done || lia).
Qed.

Lemma channel_values_same n frame1 frame2 range :
  same_below n frame1 frame2 →
  Forall (λ i, (14 + i * 2 + 7 < n)%nat) range →
  ∀ p q, channel_values frame1 range p q = channel_values frame2 range p q.
Proof.
  intros Hsame. induction 1 as [|i range Hi _ IH]; intros p q;
    cbn [channel_values]; [done|].
  unfold MEASUREFRAME_MINLENGTH.
  rewrite !(word28_same n frame1 frame2) by (done || lia).
  destruct (word28 frame2 (14 + i * 2)); cbn [mbind outcome_bind]; [|done].
  destruct (word28 frame2 (14 + i * 2 + 4)); cbn [mbind outcome_bind];
    [|done].
  apply IH.
Qed.

(** X13: with a channel count [c ≥ 0], the validator and the decoder read
    no byte at offset [18 + 4*c] or beyond: two frames of one length that
    agree below that offset get the same verdict and the same decode. Of
    the [14 + 8*c] bytes of a frame, the last [4*c - 4] are thus ignored
    when [c ≥ 2]. *)
Theorem X13_frame_tail_ignored (c : Z) (frame1 frame2 : list Z) :
  0 ≤ c →
  same_below (18 + 4 * Z.to_nat c) frame1 frame2 →
  _ismeasureframevalid c frame1 = _ismeasureframevalid c frame2
  ∧ _from_measureframe c frame1 = _from_measureframe c frame2.
Proof.
  intros Hc Hsame. set (n := (18 + 4 * Z.to_nat c)%nat) in *.
  assert (_ismeasureframevalid c frame1 = _ismeasureframevalid c frame2)
    as Hvalid.
  { unfold _ismeasureframevalid. rewrite (proj1 Hsame).
    destruct (length frame2 =? 0)%nat; [done|].
    destruct (negb _); [done|].
    unfold guard, getitem.
    rewrite !(same_below_lookup n frame1 frame2) by (done || lia).
    rewrite (channel_guards_same n frame1 frame2); [done | done |].
    eapply Forall_impl; [apply py_range_below|]. cbn. lia. }
  split; [exact Hvalid|].
  unfold _from_measureframe. rewrite Hvalid.
  destruct (_ismeasureframevalid c frame2) as [[|]|];
    cbn [mbind outcome_bind negb]; [|done|done].
  rewrite !(word14_same n frame1 frame2), !(word28_same n frame1 frame2)
    by (done || lia).
  rewrite (channel_values_same n frame1 frame2); [done | done |].
  eapply Forall_impl; [apply py_range_below|]. cbn.
  intros i Hi. lia.
Qed.

Lemma X13_frame_tail_ignored_witness :
  0 ≤ 2
  ∧ same_below (18 + 4 * Z.to_nat 2) frame_two_channels
      (take 26 frame_two_channels ++ [0x7F; 0xFF; 0xFF; 0xFF])
  ∧ _from_measureframe 2 frame_two_channels
    = _from_measureframe 2
        (take 26 frame_two_channels ++ [0x7F; 0xFF; 0xFF; 0xFF]).
Proof.
  assert (same_below (18 + 4 * Z.to_nat 2) frame_two_channels
            (take 26 frame_two_channels ++ [0x7F; 0xFF; 0xFF; 0xFF]))
    as Hsame by (split; reflexivity).
  split; [lia|]. split; [exact Hsame|].
  exact (proj2 (X13_frame_tail_ignored 2 _ _ ltac:(lia) Hsame)).
Defined.

(** ** The reception buffer over several reads *)

Lemma updatereceptionframe_eq (self : device) (bytes : list Z) :
  updatereceptionframe self bytes
  = Device (recframe self ++ bytes) (voltage self) (frequency self)
      (impuls_nb self) (channels_nb self) (integration_nb self).
Proof.
  unfold updatereceptionframe. destruct bytes as [|byte bytes].
  - cbn. rewrite app_nil_r. now destruct self.
  - cbn [length Nat.ltb Nat.leb]. now rewrite foldl_append.
Qed.

(** X14: reading in two steps or in one makes no difference: after
    [updatereceptionframe] has received [bytes1] and then [bytes2] the
    session is the one it would be had it received [bytes1 ++ bytes2] at
    once; the buffer holds its former bytes followed by the new ones, and
    the five parameters are untouched. *)
Theorem X14_reads_accumulate (self : device) (bytes1 bytes2 : list Z) :
  updatereceptionframe (updatereceptionframe self bytes1) bytes2
  = updatereceptionframe self (bytes1 ++ bytes2)
  ∧ updatereceptionframe self (bytes1 ++ bytes2)
    = Device (recframe self ++ bytes1 ++ bytes2) (voltage self)
        (frequency self) (impuls_nb self) (channels_nb self)
        (integration_nb self).
Proof.
  rewrite !updatereceptionframe_eq. cbn. now rewrite <- app_assoc.
Qed.

Lemma getrawmeasures_rejects (self : device) (c : Z) :
  channels_nb self = PyInt c →
  Z.of_nat (length (recframe self)) ≠ 14 + 8 * c →
  getrawmeasures self = (Ok no_measures, self).
Proof.
  intros Hattr Hlen. unfold getrawmeasures. rewrite Hattr. cbn.
  unfold _from_measureframe.
  now rewrite ismeasureframevalid_length by done.
Qed.

Lemma from_measureframe_false (c : Z) (frame : list Z) (m : measures) :
  _from_measureframe c frame = Ok m → result m = false → m = no_measures.
Proof.
  unfold _from_measureframe.
  destruct (_ismeasureframevalid c frame) as [[|]|]; cbn;
    [|congruence|discriminate].
  repeat match goal with
  | |- context [word14 ?f ?o] => destruct (word14 f o); cbn; [|discriminate]
  | |- context [word28 ?f ?o] => destruct (word28 f o); cbn; [|discriminate]
  end.
  destruct (channel_values _ _ _ _); cbn; [|discriminate].
  intros [= <-]. discriminate.
Qed.

Lemma from_measureframe_true (c : Z) (frame : list Z) (m : measures) :
  _from_measureframe c frame = Ok m → result m = true →
  Z.of_nat (length frame) = 14 + 8 * c.
Proof.
  unfold _from_measureframe.
  destruct (_ismeasureframevalid c frame) as [[|]|] eqn:Hvalid; cbn;
    [|intros [= <-]; discriminate | discriminate].
  intros _ _. now apply ismeasureframevalid_true in Hvalid.
Qed.

Lemma getrawmeasures_call (self : device) (c : Z) (m : measures) :
  channels_nb self = PyInt c →
  _from_measureframe c (recframe self) = Ok m →
  getrawmeasures self
  = (Ok m,
     if result m
     then Device [] (voltage self) (frequency self) (impuls_nb self)
            (channels_nb self) (integration_nb self)
     else self).
Proof.
  intros Hattr Hfrom. unfold getrawmeasures. rewrite Hattr. cbn.
  rewrite Hfrom. now destruct (result m).
Qed.

Lemma getrawmeasures_Ok (self : device) (m : measures) :
  (getrawmeasures self).1 = Ok m →
  ∃ c, channels_nb self = PyInt c
       ∧ _from_measureframe c (recframe self) = Ok m.
Proof.
  unfold getrawmeasures.
  destruct (channels_nb self) as [c| |]; cbn; try discriminate.
  destruct (_from_measureframe c (recframe self)) as [m'|] eqn:Hfrom; cbn;
    [|discriminate].
  destruct (result m'); cbn; intros [= ->]; now exists c.
Qed.

(** X15: no frame is decoded twice: when [getrawmeasures] has returned,
    with a measure or without, calling it again at once returns
    [False], zeros and empty arrays, and changes nothing. *)
Theorem X15_no_second_decode (self : device) (m : measures) :
  (getrawmeasures self).1 = Ok m →
  getrawmeasures (getrawmeasures self).2
  = (Ok (Measures false 0 0 0 0 0 [] []), (getrawmeasures self).2).
Proof.
  intros (c & Hattr & Hfrom)%getrawmeasures_Ok.
  rewrite (getrawmeasures_call self c m) by done. cbn [snd].
  destruct (result m) eqn:Hresult.
  - unfold getrawmeasures. cbn [channels_nb recframe]. rewrite Hattr.
    reflexivity.
  - rewrite (getrawmeasures_call self c m), Hresult by done.
    now apply from_measureframe_false in Hfrom as ->.
Qed.

Lemma X15_no_second_decode_witness :
  (getrawmeasures session_whole_frame).1
  = Ok (Measures true 133 2048 2176 (-2097145) 6324352 [-134217727] [2])
  ∧ getrawmeasures (getrawmeasures session_whole_frame).2
    = (Ok (Measures false 0 0 0 0 0 [] []),
       (getrawmeasures session_whole_frame).2).
Proof.
  assert ((getrawmeasures session_whole_frame).1
          = Ok (Measures true 133 2048 2176 (-2097145) 6324352 [-134217727]
                  [2])) as Hfirst by (vm_compute; reflexivity).
  split; [exact Hfirst|].
  exact (X15_no_second_decode session_whole_frame _ Hfirst).
Defined.

Lemma getallmeasures_rejects (sqrt : Q → Q) (self : device) (c : Z) :
  channels_nb self = PyInt c →
  Z.of_nat (length (recframe self)) ≠ 14 + 8 * c →
  getallmeasures sqrt self = (Ok no_allmeasures, self).
Proof.
  intros Hattr Hlen. unfold getallmeasures.
  now rewrite (getrawmeasures_rejects self c).
Qed.

(** X16: a buffer longer than a frame never recovers: once the reception
    buffer holds more than [14 + 8*c] bytes, every later turn of the
    acquisition loop appends what it reads and returns no measure,
    whatever the link delivers. *)
Theorem X16_overlong_buffer_stuck (sqrt : Q → Q) (self : device) (c : Z)
    (reads : list (list Z)) :
  channels_nb self = PyInt c →
  14 + 8 * c < Z.of_nat (length (recframe self)) →
  polls sqrt self reads
  = (replicate (length reads) (Ok no_allmeasures),
     updatereceptionframe self (concat reads)).
Proof.
  revert self. induction reads as [|bytes reads IH]; intros self Hattr Hlen.
  - reflexivity.
  - cbn [polls]. unfold poll.
    rewrite (getallmeasures_rejects sqrt _ c);
      [| now rewrite updatereceptionframe_eq
       | rewrite updatereceptionframe_eq; cbn; rewrite length_app; lia].
    rewrite IH;
      [| now rewrite updatereceptionframe_eq
       | rewrite updatereceptionframe_eq; cbn; rewrite length_app; lia].
    cbn [length replicate concat]. f_equal.
    rewrite !updatereceptionframe_eq. cbn. now rewrite <- app_assoc.
Qed.

Lemma X16_overlong_buffer_stuck_witness :
  channels_nb session_overlong = PyInt 1
  ∧ 14 + 8 * 1 < Z.of_nat (length (recframe session_overlong))
  ∧ polls sqrt_approx session_overlong [frame_one_channel; []; frame_one_channel]
    = (replicate 3 (Ok no_allmeasures),
       updatereceptionframe session_overlong
         (frame_one_channel ++ [] ++ frame_one_channel ++ [])).
Proof.
  split; [reflexivity|]. split; [cbn; lia|].
  apply (X16_overlong_buffer_stuck sqrt_approx session_overlong 1
           [frame_one_channel; []; frame_one_channel]);
    [reflexivity | cbn; lia].
Defined.

(** X17: a frame may arrive in two reads: from an empty buffer, after the
    first part the decode returns no measure and keeps the bytes, and
    after the second part it returns the measure of the whole frame and
    leaves the session as it was before the two reads. *)
Theorem X17_frame_in_two_reads (self : device) (c : Z)
    (bytes1 bytes2 : list Z) (m : measures) :
  channels_nb self = PyInt c →
  recframe self = [] →
  bytes2 ≠ [] →
  _from_measureframe c (bytes1 ++ bytes2) = Ok m →
  result m = true →
  getrawmeasures (updatereceptionframe self bytes1)
  = (Ok (Measures false 0 0 0 0 0 [] []), updatereceptionframe self bytes1)
  ∧ getrawmeasures
      (updatereceptionframe (updatereceptionframe self bytes1) bytes2)
    = (Ok m, self).
Proof.
  intros Hattr Hempty Hbytes2 Hfrom Hresult.
  pose proof (from_measureframe_true _ _ _ Hfrom Hresult) as Hlen.
  rewrite length_app in Hlen.
  assert (0 < length bytes2)%nat by (destruct bytes2; [done | cbn; lia]).
  split.
  - apply (getrawmeasures_rejects _ c);
      rewrite updatereceptionframe_eq, Hempty; cbn; [done | lia].
  - rewrite !updatereceptionframe_eq. cbn. rewrite Hempty. cbn.
    rewrite (getrawmeasures_call _ c m) by done.
    rewrite Hresult. cbn. f_equal. destruct self; cbn in *. now subst.
Qed.

Lemma X17_frame_in_two_reads_witness :
  getrawmeasures
    (updatereceptionframe
       (updatereceptionframe session_empty (take 9 frame_one_channel))
       (drop 9 frame_one_channel))
  = (Ok (Measures true 133 2048 2176 (-2097145) 6324352 [-134217727] [2]),
     session_empty).
Proof.
  apply (X17_frame_in_two_reads session_empty 1 (take 9 frame_one_channel)
           (drop 9 frame_one_channel));
    [reflexivity | reflexivity | discriminate | vm_compute; reflexivity
    | reflexivity].
Defined.

(** ** The physical values *)

Lemma tobatteryrealvalue_range (code : Z) :
  fits14 code →
  (0 <= tobatteryrealvalue code)%Q ∧ (tobatteryrealvalue code <= 18.3)%Q.
Proof.
  unfold fits14, tobatteryrealvalue. change (2 ^ 14) with 16384.
  intros [Hlo Hhi].
  assert (inject_Z 0 <= inject_Z code)%Q as H0
    by (rewrite <- Zle_Qle; lia).
  assert (inject_Z code <= inject_Z 16383)%Q as H1
    by (rewrite <- Zle_Qle; lia).
  change (inject_Z 0) with 0%Q in H0.
  change (inject_Z 16383) with 16383%Q in H1.
  unfold Qdiv. change (/ 16383)%Q with (1 # 16383)%Q. split; lra.
Qed.

Lemma topotentialrealvalue_range (code : Z) :
  decoded28 code →
  (- (2500) < topotentialrealvalue code)%Q
  ∧ (topotentialrealvalue code <= 2500)%Q.
Proof.
  unfold decoded28, topotentialrealvalue.
  change (2 ^ 27) with 134217728. intros [Hlo Hhi].
  rewrite inject_Z_mult.
  assert (inject_Z (-134217728) < inject_Z code)%Q as H0
    by (rewrite <- Zlt_Qlt; lia).
  assert (inject_Z code <= inject_Z 134217728)%Q as H1
    by (rewrite <- Zle_Qle; lia).
  change (inject_Z (-134217728)) with (-134217728 # 1)%Q in H0.
  change (inject_Z 134217728) with 134217728%Q in H1.
  unfold Qdiv. change (/ inject_Z (2 ^ 28))%Q with (1 # 268435456)%Q.
  change (inject_Z 5000) with 5000%Q. split; lra.
Qed.

Lemma tocurrentrealvalue_range (code : Z) :
  decoded28 code →
  (- (22728) < tocurrentrealvalue code)%Q
  ∧ (tocurrentrealvalue code < 22728)%Q.
Proof.
  unfold decoded28, tocurrentrealvalue, RI.
  change (2 ^ 27) with 134217728. intros [Hlo Hhi].
  rewrite inject_Z_mult.
  assert (inject_Z (-134217728) < inject_Z code)%Q as H0
    by (rewrite <- Zlt_Qlt; lia).
  assert (inject_Z code <= inject_Z 134217728)%Q as H1
    by (rewrite <- Zle_Qle; lia).
  change (inject_Z (-134217728)) with (-134217728 # 1)%Q in H0.
  change (inject_Z 134217728) with 134217728%Q in H1.
  unfold Qdiv.
  change (/ (110 * inject_Z (2 ^ 28)))%Q with (1 # 29527900160)%Q.
  change (inject_Z 5000000) with 5000000%Q. split; lra.
Qed.

(** X19: the real values of whatever the decoder returns are bounded: a
    battery voltage lies between 0 and 18.3 V, a potential above -2500
    and at most 2500 mV, a current strictly between -22728 and 22728
    mA. *)
Theorem X19_physical_ranges (c : Z) (frame : list Z) (m : measures) :
  _from_measureframe c frame = Ok m →
  ((0 <= tobatteryrealvalue (recbatvoltage m))%Q
   ∧ (tobatteryrealvalue (recbatvoltage m) <= 18.3)%Q)
  ∧ ((0 <= tobatteryrealvalue (embatvoltage m))%Q
     ∧ (tobatteryrealvalue (embatvoltage m) <= 18.3)%Q)
  ∧ ((- (22728) < tocurrentrealvalue (phasecurrent m))%Q
     ∧ (tocurrentrealvalue (phasecurrent m) < 22728)%Q)
  ∧ ((- (22728) < tocurrentrealvalue (quadcurrent m))%Q
     ∧ (tocurrentrealvalue (quadcurrent m) < 22728)%Q)
  ∧ Forall (λ code, (- (2500) < topotentialrealvalue code)%Q
                    ∧ (topotentialrealvalue code <= 2500)%Q)
      (phasevoltagearray m ++ quadvoltagearray m).
Proof.
  intros Hfrom.
  assert (fits14 (recbatvoltage m) ∧ fits14 (embatvoltage m)
          ∧ decoded28 (phasecurrent m) ∧ decoded28 (quadcurrent m)
          ∧ Forall decoded28 (phasevoltagearray m)
          ∧ Forall decoded28 (quadvoltagearray m))
    as (Hrb & Heb & Hpc & Hqc & Hps & Hqs).
  { destruct (result m) eqn:Hresult.
    - destruct (from_measureframe_fields c frame m Hfrom Hresult)
        as (_ & H2 & H4 & H6 & H10).
      destruct (from_measureframe_offsets c frame m Hfrom Hresult)
        as [Hps Hqs].
      do 2 (split; [eauto using word14_fits|]).
      do 2 (split; [eauto using decoded_at_decoded28|]).
      split; (eapply Forall2_Forall_r; [eassumption|]);
        apply Forall_forall; intros i _ p; apply decoded_at_decoded28.
    - apply from_measureframe_false in Hfrom as ->; [|done].
      unfold fits14, decoded28. cbn.
      do 4 (split; [lia|]). split; constructor. }
  split; [now apply tobatteryrealvalue_range|].
  split; [now apply tobatteryrealvalue_range|].
  split; [now apply tocurrentrealvalue_range|].
  split; [now apply tocurrentrealvalue_range|].
  apply Forall_app. split;
    (eapply Forall_impl; [eassumption|]); apply topotentialrealvalue_range.
Qed.

Lemma X19_physical_ranges_witness :
  _from_measureframe 1 frame_one_channel
  = Ok (Measures true 133 2048 2176 (-2097145) 6324352 [-134217727] [2])
  ∧ (- (2500) < topotentialrealvalue (-134217727))%Q.
Proof.
  assert (_from_measureframe 1 frame_one_channel
          = Ok (Measures true 133 2048 2176 (-2097145) 6324352
                  [-134217727] [2])) as Hfrom by (vm_compute; reflexivity).
  split; [exact Hfrom|].
  destruct (X19_physical_ranges 1 frame_one_channel _ Hfrom)
    as (_ & _ & _ & _ & Hpot).
  apply Forall_cons in Hpot as [[Hlo _] _]. exact Hlo.
Defined.

(** ** [getrealmeasures] and [getallmeasures] *)

Lemma getitem_Some {A} (l : list A) (i : nat) (x : A) :
  l !! i = Some x → getitem l i = Ok x.
Proof. intros Hi. unfold getitem. now rewrite Hi. Qed.

Lemma realmeasures_loop_maps (sqrt : Q → Q) (ps qs : list Z) :
  ∀ n k pr qr pot,
    length pr = k → length qr = k →
    (k + n)%nat = length ps → (k + n)%nat = length qs →
    ∃ pot',
      realmeasures_loop sqrt ps qs (seq k n) pr qr pot
      = Ok (pr ++ map topotentialrealvalue (drop k ps),
            qr ++ map topotentialrealvalue (drop k qs), pot').
Proof.
  induction n as [|n IH]; intros k pr qr pot Hpr Hqr Hps Hqs;
    cbn [seq realmeasures_loop].
  - exists pot. rewrite !drop_ge by lia. cbn. now rewrite !app_nil_r.
  - destruct (lookup_lt_is_Some_2 ps k) as [p Hp]; [lia|].
    destruct (lookup_lt_is_Some_2 qs k) as [q Hq]; [lia|].
    rewrite (getitem_Some _ _ _ Hp). cbn [mbind outcome_bind].
    rewrite (getitem_Some _ _ _ Hq). cbn [mbind outcome_bind].
    rewrite (getitem_Some (pr ++ [topotentialrealvalue p]) k
               (topotentialrealvalue p))
      by now apply list_lookup_middle.
    cbn [mbind outcome_bind].
    rewrite (getitem_Some (qr ++ [topotentialrealvalue q]) k
               (topotentialrealvalue q))
      by now apply list_lookup_middle.
    cbn [mbind outcome_bind].
    edestruct (IH (S k)) as [pot' ->];
      [| | | |exists pot'];
      rewrite ?length_app; cbn [length]; try lia.
    rewrite (drop_S _ _ _ Hp), (drop_S _ _ _ Hq). cbn [map].
    now rewrite <- !app_assoc.
Qed.

(** X20: with a non-negative channel count [getrealmeasures] never
    raises; it leaves the session as [getrawmeasures] does, and it returns
    the raw count, the battery codes times 18.3/16383 and, when there is a
    measure, the currents and the potentials of the raw measure converted
    one by one. *)
Theorem X20_getrealmeasures (sqrt : Q → Q) (self : device) (c : Z) :
  channels_nb self = PyInt c →
  0 ≤ c →
  ∃ m,
    getrawmeasures self = (Ok m, (getrawmeasures self).2)
    ∧ getrealmeasures sqrt self
      = (Ok (RealMeasures (result m) (count m)
               (tobatteryrealvalue (recbatvoltage m))
               (tobatteryrealvalue (embatvoltage m))
               (if result m then tocurrentrealvalue (phasecurrent m) else 0)
               (if result m then tocurrentrealvalue (quadcurrent m) else 0)
               (map topotentialrealvalue (phasevoltagearray m))
               (map topotentialrealvalue (quadvoltagearray m))),
         (getrawmeasures self).2).
Proof.
  intros Hattr Hc.
  destruct (from_measureframe_returns c (recframe self) Hc) as (m & Hfrom & _).
  exists m. unfold getrealmeasures.
  rewrite (getrawmeasures_call self c m) by done. cbn [snd].
  split; [reflexivity|].
  destruct (result m) eqn:Hresult.
  - pose proof (from_measureframe_offsets c _ m Hfrom Hresult) as [Hps Hqs].
    apply Forall2_length in Hps, Hqs.
    destruct (realmeasures_loop_maps sqrt (phasevoltagearray m)
                (quadvoltagearray m) (length (phasevoltagearray m)) 0
                [] [] []) as [pot ->]; [done | done | done | cbn; lia |].
    rewrite !drop_0. reflexivity.
  - apply from_measureframe_false in Hfrom as ->; [|done]. reflexivity.
Qed.

Lemma X20_getrealmeasures_witness :
  channels_nb session_whole_frame = PyInt 1
  ∧ 0 ≤ 1
  ∧ ∃ m,
      getrawmeasures session_whole_frame
      = (Ok m, (getrawmeasures session_whole_frame).2)
      ∧ getrealmeasures sqrt_approx session_whole_frame
        = (Ok (RealMeasures (result m) (count m)
                 (tobatteryrealvalue (recbatvoltage m))
                 (tobatteryrealvalue (embatvoltage m))
                 (if result m then tocurrentrealvalue (phasecurrent m)
                  else 0)
                 (if result m then tocurrentrealvalue (quadcurrent m)
                  else 0)
                 (map topotentialrealvalue (phasevoltagearray m))
                 (map topotentialrealvalue (quadvoltagearray m))),
           (getrawmeasures session_whole_frame).2).
Proof.
  split; [reflexivity|]. split; [lia|].
  apply (X20_getrealmeasures sqrt_approx session_whole_frame 1);
    [reflexivity | lia].
Defined.

Lemma tocurrentrealvalue_zero (code : Z) :
  (tocurrentrealvalue code == 0)%Q ↔ code = 0.
Proof.
  unfold tocurrentrealvalue.
  change (RI * inject_Z (2 ^ 28))%Q with (29527900160 # 1)%Q.
  unfold Qdiv. change (/ (29527900160 # 1))%Q with (1 # 29527900160)%Q.
  unfold Qeq, Qmult, inject_Z. cbn [Qnum Qden]. lia.
Qed.

Lemma toresistivityvalue_zero (ip iq vp vq : Q) :
  (ip == 0)%Q → (iq == 0)%Q →
  toresistivityvalue ip iq vp vq = Raise ZeroDivisionError.
Proof.
  intros Hip Hiq. unfold toresistivityvalue, py_div.
  assert (Qeq_bool (pow2 ip + pow2 iq) 0 = true) as ->; [|reflexivity].
  apply Qeq_bool_iff. unfold pow2. rewrite Hip, Hiq. reflexivity.
Qed.

(** X21: a frame whose two current codes are zero makes [getallmeasures]
    raise [ZeroDivisionError] as soon as there is a channel, and the frame
    is lost: the buffer has been emptied before the division. *)
Theorem X21_zero_current_frame_lost (sqrt : Q → Q) (self : device) (c : Z)
    (m : measures) :
  channels_nb self = PyInt c →
  1 ≤ c →
  _from_measureframe c (recframe self) = Ok m →
  result m = true →
  phasecurrent m = 0 →
  quadcurrent m = 0 →
  getallmeasures sqrt self
  = (Raise ZeroDivisionError,
     Device [] (voltage self) (frequency self) (impuls_nb self)
       (channels_nb self) (integration_nb self)).
Proof.
  intros Hattr Hc Hfrom Hresult Hpc Hqc.
  pose proof (from_measureframe_offsets c _ m Hfrom Hresult) as [Hps Hqs].
  apply Forall2_length in Hps, Hqs. unfold py_range in Hps, Hqs.
  rewrite length_seq in Hps, Hqs.
  unfold getallmeasures. rewrite (getrawmeasures_call self c m) by done.
  rewrite Hresult, Hpc, Hqc.
  destruct (phasevoltagearray m) as [|p ps]; [cbn in Hps; lia|].
  destruct (quadvoltagearray m) as [|q qs]; [cbn in Hqs; lia|].
  cbn [length seq allmeasures_loop].
  rewrite (getitem_Some (p :: ps) 0 p), (getitem_Some (q :: qs) 0 q) by done.
  cbn [mbind outcome_bind app].
  rewrite (getitem_Some [topotentialrealvalue p] 0 (topotentialrealvalue p)),
    (getitem_Some [topotentialrealvalue q] 0 (topotentialrealvalue q))
    by done.
  cbn [mbind outcome_bind].
  rewrite toresistivityvalue_zero by (now apply tocurrentrealvalue_zero).
  reflexivity.
Qed.

Lemma X21_zero_current_frame_lost_witness :
  getallmeasures sqrt_approx session_zero_current
  = (Raise ZeroDivisionError, session_empty).
Proof.
  apply (X21_zero_current_frame_lost sqrt_approx session_zero_current 1
           (Measures true 0 0 0 0 0 [1] [2]));
    [reflexivity | lia | vm_compute; reflexivity | reflexivity | reflexivity
    | reflexivity].
Defined.

Lemma allmeasures_loop_maps (sqrt : Q → Q) (m : measures) (ps qs : list Z) :
  phasecurrent m ≠ 0 ∨ quadcurrent m ≠ 0 →
  ∀ n k pr qr pot rp rq,
    length pr = k → length qr = k →
    (k + n)%nat = length ps → (k + n)%nat = length qs →
    ∃ pot' rs,
      allmeasures_loop sqrt (tocurrentrealvalue (phasecurrent m))
        (tocurrentrealvalue (quadcurrent m)) ps qs (seq k n) pr qr pot rp rq
      = Ok (pr ++ map topotentialrealvalue (drop k ps),
            qr ++ map topotentialrealvalue (drop k qs), pot',
            rp ++ rs.*1, rq ++ rs.*2)
      ∧ Forall2 (channel_resistivity m) (zip (drop k ps) (drop k qs)) rs.
Proof.
  intros Hcur.
  induction n as [|n IH]; intros k pr qr pot rp rq Hpr Hqr Hps Hqs;
    cbn [seq allmeasures_loop].
  - exists pot, []. rewrite !drop_ge by lia. cbn. rewrite !app_nil_r.
    split; [reflexivity | constructor].
  - destruct (lookup_lt_is_Some_2 ps k) as [p Hp]; [lia|].
    destruct (lookup_lt_is_Some_2 qs k) as [q Hq]; [lia|].
    rewrite (getitem_Some _ _ _ Hp). cbn [mbind outcome_bind].
    rewrite (getitem_Some _ _ _ Hq). cbn [mbind outcome_bind].
    rewrite !(getitem_Some (pr ++ [topotentialrealvalue p]) k
                (topotentialrealvalue p))
      by now apply list_lookup_middle.
    cbn [mbind outcome_bind].
    rewrite !(getitem_Some (qr ++ [topotentialrealvalue q]) k
                (topotentialrealvalue q))
      by now apply list_lookup_middle.
    cbn [mbind outcome_bind].
    destruct (toresistivityvalue_returns
                (tocurrentrealvalue (phasecurrent m))
                (tocurrentrealvalue (quadcurrent m))
                (topotentialrealvalue p) (topotentialrealvalue q))
      as [r Hr].
    { rewrite !tocurrentrealvalue_zero. tauto. }
    rewrite Hr. cbn [mbind outcome_bind].
    edestruct (IH (S k)) as (pot' & rs & -> & Hrs);
      [| | | |exists pot', (r :: rs)];
      rewrite ?length_app; cbn [length]; try lia.
    rewrite (drop_S _ _ _ Hp), (drop_S _ _ _ Hq). cbn [map fmap list_fmap zip
      zip_with].
    rewrite <- !app_assoc. split; [reflexivity|].
    constructor; [exact Hr | exact Hrs].
Qed.

(** X22: with a non-negative channel count and a frame in which a current
    code is not zero, [getallmeasures] returns the measure and empties the
    buffer: the count, the two battery voltages, the currents and the
    potentials converted one by one, and for each channel the
    resistivities that [toresistivityvalue] computes from them. *)
Theorem X22_getallmeasures (sqrt : Q → Q) (self : device) (c : Z)
    (m : measures) :
  channels_nb self = PyInt c →
  _from_measureframe c (recframe self) = Ok m →
  result m = true →
  phasecurrent m ≠ 0 ∨ quadcurrent m ≠ 0 →
  ∃ rs,
    getallmeasures sqrt self
    = (Ok (AllMeasures true (count m)
             (tobatteryrealvalue (recbatvoltage m))
             (tobatteryrealvalue (embatvoltage m))
             (tocurrentrealvalue (phasecurrent m))
             (tocurrentrealvalue (quadcurrent m))
             (map topotentialrealvalue (phasevoltagearray m))
             (map topotentialrealvalue (quadvoltagearray m))
             rs.*1 rs.*2),
       Device [] (voltage self) (frequency self) (impuls_nb self)
         (channels_nb self) (integration_nb self))
    ∧ Forall2 (channel_resistivity m)
        (zip (phasevoltagearray m) (quadvoltagearray m)) rs.
Proof.
  intros Hattr Hfrom Hresult Hcur.
  pose proof (from_measureframe_offsets c _ m Hfrom Hresult) as [Hps Hqs].
  apply Forall2_length in Hps, Hqs.
  unfold getallmeasures. rewrite (getrawmeasures_call self c m) by done.
  rewrite Hresult.
  destruct (allmeasures_loop_maps sqrt m (phasevoltagearray m)
              (quadvoltagearray m) Hcur (length (phasevoltagearray m)) 0
              [] [] [] [] []) as (pot & rs & -> & Hrs);
    [done | done | done | cbn; lia |].
  rewrite !drop_0 in Hrs. exists rs. split; [|exact Hrs].
  rewrite !drop_0. reflexivity.
Qed.

Lemma X22_getallmeasures_witness :
  ∃ rs,
    getallmeasures sqrt_approx session_whole_frame
    = (Ok (AllMeasures true 133 (tobatteryrealvalue 2048)
             (tobatteryrealvalue 2176) (tocurrentrealvalue (-2097145))
             (tocurrentrealvalue 6324352)
             (map topotentialrealvalue [-134217727])
             (map topotentialrealvalue [2]) rs.*1 rs.*2),
       session_empty)
    ∧ length rs = 1%nat.
Proof.
  destruct (X22_getallmeasures sqrt_approx session_whole_frame 1
              (Measures true 133 2048 2176 (-2097145) 6324352
                 [-134217727] [2]))
    as (rs & Hcall & Hrs);
    [reflexivity | vm_compute; reflexivity | reflexivity | left; discriminate
    |].
  exists rs. split; [exact Hcall|].
  apply Forall2_length in Hrs. now rewrite <- Hrs.
Defined.

(** ** The names of the fields *)

Lemma foldl_appends (body : heap → nat → heap) (l : nat)
    (names_of : nat → list string) :
  (∀ h i xs, h !! l = Some xs → body h i !! l = Some (xs ++ names_of i)) →
  ∀ range h xs, h !! l = Some xs →
    foldl body h range !! l = Some (xs ++ concat (map names_of range)).
Proof.
  intros Hbody range. induction range as [|i range IH]; intros h xs Hl; cbn.
  - now rewrite app_nil_r.
  - rewrite (IH _ (xs ++ names_of i)) by now apply Hbody.
    now rewrite <- app_assoc.
Qed.

Lemma append_names_lookup (l : nat) (names : list string) (i : nat)
    (h : heap) (xs : list string) :
  h !! l = Some xs →
  append_names l names i h !! l
  = Some (xs ++ map (λ n, format_d (names !!! n) (pretty i))
                  (seq 0 (length names))).
Proof.
  intros Hl. unfold append_names.
  exact (foldl_append_lookup l (λ n, format_d (names !!! n) (pretty i))
           _ _ _ Hl).
Qed.

Lemma getallfieldnames_lookup (c : Z) (h : heap) (xs : list string) :
  h !! COMMONFIELDS_LIST = Some xs →
  (getallfieldnames c h).2 !! COMMONFIELDS_LIST
  = Some (xs ++ concat (map all_names (py_range c))).
Proof.
  intros Hl. unfold getallfieldnames. cbn [snd].
  apply (foldl_appends _ COMMONFIELDS_LIST all_names); [|exact Hl].
  intros h0 i xs0 Hl0.
  rewrite (append_names_lookup _ _ _ _ (xs0 ++ potential_names i)).
  - now rewrite <- app_assoc.
  - now rewrite (append_names_lookup _ _ _ _ xs0).
Qed.

Lemma getallfieldnames_others (c : Z) (h : heap) (l : nat) :
  l ≠ COMMONFIELDS_LIST →
  (getallfieldnames c h).2 !! l = h !! l.
Proof.
  intros Hne. unfold getallfieldnames. cbn [snd].
  apply foldl_keeps. intros h0 i.
  now rewrite !append_names_keeps.
Qed.

(** X23: [getallfieldnames] returns the shared list, to which it has
    appended, channel after channel from 0, the two potential names and
    the two resistivity names with the channel's number in them; what the
    list held before stays in front, and no other list changes. *)
Theorem X23_getallfieldnames_names (c : Z) (h : heap) (xs : list string) :
  h !! COMMONFIELDS_LIST = Some xs →
  (getallfieldnames c h).1 = COMMONFIELDS_LIST
  ∧ (getallfieldnames c h).2 !! COMMONFIELDS_LIST
    = Some (xs ++ concat (map all_names (py_range c)))
  ∧ ∀ l, l ≠ COMMONFIELDS_LIST → (getallfieldnames c h).2 !! l = h !! l.
Proof.
  intros Hl. split; [reflexivity|].
  split; [now apply getallfieldnames_lookup|].
  intros l. apply getallfieldnames_others.
Qed.

Lemma X23_getallfieldnames_names_witness :
  class_heap !! COMMONFIELDS_LIST
  = Some ["count"; "rec. batt. voltage(V)"; "em. batt. voltage(V)";
          "phase current(mA)"; "quad. current(mA)"]
  ∧ (getallfieldnames 1 class_heap).2 !! COMMONFIELDS_LIST
    = Some (["count"; "rec. batt. voltage(V)"; "em. batt. voltage(V)";
             "phase current(mA)"; "quad. current(mA)"]
            ++ concat (map all_names (py_range 1))).
Proof.
  assert (class_heap !! COMMONFIELDS_LIST
          = Some ["count"; "rec. batt. voltage(V)"; "em. batt. voltage(V)";
                  "phase current(mA)"; "quad. current(mA)"]) as Hl
    by reflexivity.
  split; [exact Hl|].
  exact (proj1 (proj2 (X23_getallfieldnames_names 1 class_heap _ Hl))).
Defined.

(** X24: [getrealfieldnames] appends to the same shared list the two
    potential names of each channel, so the names it returns come after
    whatever earlier calls of either function have left there. *)
Theorem X24_getrealfieldnames_names (c : Z) (h : heap) (xs : list string) :
  h !! COMMONFIELDS_LIST = Some xs →
  (getrealfieldnames c h).1 = COMMONFIELDS_LIST
  ∧ (getrealfieldnames c h).2 !! COMMONFIELDS_LIST
    = Some (xs ++ concat (map potential_names (py_range c)))
  ∧ (getrealfieldnames c (getallfieldnames c h).2).2 !! COMMONFIELDS_LIST
    = Some (xs ++ concat (map all_names (py_range c))
               ++ concat (map potential_names (py_range c)))
  ∧ ∀ l, l ≠ COMMONFIELDS_LIST → (getrealfieldnames c h).2 !! l = h !! l.
Proof.
  intros Hl.
  assert (∀ h0 xs0, h0 !! COMMONFIELDS_LIST = Some xs0 →
            (getrealfieldnames c h0).2 !! COMMONFIELDS_LIST
            = Some (xs0 ++ concat (map potential_names (py_range c))))
    as Hreal.
  { intros h0 xs0 Hl0. unfold getrealfieldnames. cbn [snd].
    apply (foldl_appends _ COMMONFIELDS_LIST potential_names); [|exact Hl0].
    intros h1 i xs1 Hl1. now rewrite (append_names_lookup _ _ _ _ xs1). }
  split; [reflexivity|]. split; [now apply Hreal|]. split.
  - rewrite (Hreal _ _ (getallfieldnames_lookup c h xs Hl)).
    now rewrite <- app_assoc.
  - intros l Hne. unfold getrealfieldnames. cbn [snd].
    apply foldl_keeps. intros h0 i. now rewrite append_names_keeps.
Qed.

Lemma X24_getrealfieldnames_names_witness :
  class_heap !! COMMONFIELDS_LIST
  = Some ["count"; "rec. batt. voltage(V)"; "em. batt. voltage(V)";
          "phase current(mA)"; "quad. current(mA)"]
  ∧ (getrealfieldnames 2 class_heap).2 !! COMMONFIELDS_LIST
    = Some (["count"; "rec. batt. voltage(V)"; "em. batt. voltage(V)";
             "phase current(mA)"; "quad. current(mA)"]
            ++ concat (map potential_names (py_range 2))).
Proof.
  assert (class_heap !! COMMONFIELDS_LIST
          = Some ["count"; "rec. batt. voltage(V)"; "em. batt. voltage(V)";
                  "phase current(mA)"; "quad. current(mA)"]) as Hl
    by reflexivity.
  split; [exact Hl|].
  exact (proj1 (proj2 (X24_getrealfieldnames_names 2 class_heap _ Hl))).
Defined.

(** X25: the header row of [acquiremeasures] carries the names of
    [getallfieldnames]: without [datetimedisplay] it is the shared list
    itself, changed as [getallfieldnames] changes it; with
    [datetimedisplay] it is a new list, ["date"] followed by the present
    names of the shared list and the names of the channels, and the shared
    list keeps what it had. *)
Theorem X25_header_names (c : Z) (h : heap) (xs : list string) :
  h !! COMMONFIELDS_LIST = Some xs →
  acquiremeasures_header c false h = getallfieldnames c h
  ∧ (acquiremeasures_header c true h).1 ≠ COMMONFIELDS_LIST
  ∧ (acquiremeasures_header c true h).2 !! (acquiremeasures_header c true h).1
    = Some ("date" :: xs ++ concat (map all_names (py_range c)))
  ∧ (acquiremeasures_header c true h).2 !! COMMONFIELDS_LIST = Some xs.
Proof.
  intros Hl. split; [reflexivity|].
  unfold acquiremeasures_header, new_list. rewrite Hl. cbn [default fst snd].
  set (l := fresh (dom h)).
  assert (l ≠ COMMONFIELDS_LIST) as Hne.
  { intros Heq. apply (is_fresh (dom h)). fold l. rewrite Heq.
    apply elem_of_dom. eauto. }
  split; [exact Hne|].
  set (body := λ (h0 : heap) (n : nat),
         let h1 := append_names l POTENTIALFIELDS_LIST n h0 in
         foldl (λ h2 i,
                  append l (format_d (RESISTIVITYFIELDS_LIST !!! i) (pretty n))
                    h2)
               h1 (seq 0 (length POTENTIALFIELDS_LIST))).
  assert (∀ h0 i xs0, h0 !! l = Some xs0 →
            body h0 i !! l = Some (xs0 ++ all_names i)) as Hbody.
  { intros h0 i xs0 Hl0. unfold body. cbn zeta.
    rewrite (foldl_append_lookup l
               (λ n, format_d (RESISTIVITYFIELDS_LIST !!! n) (pretty i))
               _ _ (xs0 ++ potential_names i)).
    - now rewrite <- app_assoc.
    - now rewrite (append_names_lookup _ _ _ _ xs0). }
  assert (∀ h0 i, body h0 i !! COMMONFIELDS_LIST = h0 !! COMMONFIELDS_LIST)
    as Hkeep.
  { intros h0 i. unfold body. cbn zeta.
    rewrite (foldl_append_lookup_ne l COMMONFIELDS_LIST
               (λ n, format_d (RESISTIVITYFIELDS_LIST !!! n) (pretty i)))
      by done.
    now apply append_names_keeps. }
  split.
  - change ([DATEFIELD] ++ xs) with ("date" :: xs).
    rewrite (foldl_appends body l all_names Hbody (py_range c) _
               ("date" :: xs)) by apply lookup_insert_eq.
    reflexivity.
  - rewrite (foldl_keeps body COMMONFIELDS_LIST Hkeep).
    now rewrite lookup_insert_ne.
Qed.

Lemma X25_header_names_witness :
  class_heap !! COMMONFIELDS_LIST
  = Some ["count"; "rec. batt. voltage(V)"; "em. batt. voltage(V)";
          "phase current(mA)"; "quad. current(mA)"]
  ∧ acquiremeasures_header 1 false class_heap = getallfieldnames 1 class_heap
  ∧ (acquiremeasures_header 1 true class_heap).2 !! COMMONFIELDS_LIST
    = Some ["count"; "rec. batt. voltage(V)"; "em. batt. voltage(V)";
            "phase current(mA)"; "quad. current(mA)"].
Proof.
  assert (class_heap !! COMMONFIELDS_LIST
          = Some ["count"; "rec. batt. voltage(V)"; "em. batt. voltage(V)";
                  "phase current(mA)"; "quad. current(mA)"]) as Hl
    by reflexivity.
  split; [exact Hl|].
  destruct (X25_header_names 1 class_heap _ Hl) as (Hsame & _ & _ & Hkeep).
  split; [exact Hsame | exact Hkeep].
Defined.
